(** * nats_actor.core.actor: the worker's lifecycle and control plane

    A shallow embedding of [src/nats_actor/core/actor.py].  Python objects
    that the actor mutates (the control queue, the driver's connection, the
    process-wide signal table, the logging output) live in one [World]
    record that every operation threads explicitly; an operation returns a
    [Res] that is either a value or a raised exception, and the world it
    leaves behind is kept in both cases, as in Python. *)

From Stdlib Require Import ZArith Lia Bool.
From Stdlib Require Import Strings.Byte.
From stdpp Require Import base option list gmap strings.

Local Open Scope Z_scope.

(** ** Python values *)

(** A Python [str] is a sequence of Unicode code points. *)
Definition PyStr := list Z.

(** A Python [bytes] object. *)
Definition PyBytes := list byte.

Definition pystr (s : string) : PyStr :=
  map (fun a => Z.of_N (Ascii.N_of_ascii a)) (String.list_ascii_of_string s).

Definition WORKER_CONTROL_SIGNAL_START : PyStr := pystr "START".
Definition WORKER_CONTROL_SIGNAL_STOP : PyStr := pystr "STOP".

(** The exceptions that the modelled code paths can raise. *)
Inductive Exn :=
| TypeError
| UnicodeDecodeError
| QueueFull
| TimeoutError
| ConnectionError
| SubscriptionError
| ImportError
| KeyboardInterrupt
| CancelledError
| RuntimeError.

Global Instance Exn_eq_dec : EqDecision Exn.
Proof. solve_decision. Defined.

(** The result of a call: a returned value or a raised exception. *)
Inductive Res (A : Type) :=
| Ok (a : A)
| Raise (e : Exn).
Arguments Ok {A} a.
Arguments Raise {A} e.

(** ** [bytes.decode()]: strict UTF-8 *)

Definition byte_val (b : byte) : Z := Z.of_N (Byte.to_N b).

Definition is_continuation (v : Z) : bool := Z.land v 0xC0 =? 0x80.

Definition low6 (v : Z) : Z := Z.land v 0x3F.

Definition cp2 (v0 v1 : Z) : Z :=
  Z.lor (Z.shiftl (Z.land v0 0x1F) 6) (low6 v1).

Definition cp3 (v0 v1 v2 : Z) : Z :=
  Z.lor (Z.shiftl (Z.land v0 0x0F) 12) (Z.lor (Z.shiftl (low6 v1) 6) (low6 v2)).

Definition cp4 (v0 v1 v2 v3 : Z) : Z :=
  Z.lor (Z.shiftl (Z.land v0 0x07) 18)
    (Z.lor (Z.shiftl (low6 v1) 12) (Z.lor (Z.shiftl (low6 v2) 6) (low6 v3))).

Definition is_surrogate (cp : Z) : bool := (0xD800 <=? cp) && (cp <=? 0xDFFF).

(** [data.decode()] with the default codec and [errors='strict']: [None]
    stands for [UnicodeDecodeError].  Overlong forms, surrogates and code
    points above U+10FFFF are rejected. *)
Fixpoint utf8_decode (bs : PyBytes) : option PyStr :=
  match bs with
  | [] => Some []
  | b0 :: r0 =>
    let v0 := byte_val b0 in
    if v0 <? 0x80 then cons v0 <$> utf8_decode r0
    else if (0xC0 <=? v0) && (v0 <? 0xE0) then
      match r0 with
      | b1 :: r1 =>
        let v1 := byte_val b1 in
        let cp := cp2 v0 v1 in
        if is_continuation v1 && (0x80 <=? cp)
        then cons cp <$> utf8_decode r1 else None
      | _ => None
      end
    else if (0xE0 <=? v0) && (v0 <? 0xF0) then
      match r0 with
      | b1 :: b2 :: r2 =>
        let v1 := byte_val b1 in
        let v2 := byte_val b2 in
        let cp := cp3 v0 v1 v2 in
        if is_continuation v1 && is_continuation v2
           && (0x800 <=? cp) && negb (is_surrogate cp)
        then cons cp <$> utf8_decode r2 else None
      | _ => None
      end
    else if (0xF0 <=? v0) && (v0 <? 0xF8) then
      match r0 with
      | b1 :: b2 :: b3 :: r3 =>
        let v1 := byte_val b1 in
        let v2 := byte_val b2 in
        let v3 := byte_val b3 in
        let cp := cp4 v0 v1 v2 v3 in
        if is_continuation v1 && is_continuation v2 && is_continuation v3
           && (0x10000 <=? cp) && (cp <=? 0x10FFFF)
        then cons cp <$> utf8_decode r3 else None
      | _ => None
      end
    else None
  end.

Definition bytes_decode (data : PyBytes) : Res PyStr :=
  match utf8_decode data with
  | Some s => Ok s
  | None => Raise UnicodeDecodeError
  end.

(** ** [asyncio.Queue] *)

(** The queue keeps its items in a deque: [put_nowait] appends on the
    right, [get] pops on the left.  [maxsize <= 0] means unbounded. *)
Record Queue := mkQueue {
  maxsize : Z;
  items : list PyStr
}.

Module Queue_.

(** [asyncio.Queue(maxsize=0)] *)
Definition new (maxsize : Z) : Queue := mkQueue maxsize [].

Definition qsize (q : Queue) : Z := Z.of_nat (length (items q)).

Definition full (q : Queue) : bool :=
  if maxsize q <=? 0 then false else maxsize q <=? qsize q.

(** Returns [None] (the Python value) on success. *)
Definition put_nowait (item : PyStr) (q : Queue) : Res unit * Queue :=
  if full q then (Raise QueueFull, q)
  else (Ok tt, mkQueue (maxsize q) (items q ++ [item])).

(** [await q.get()]: [None] when the queue is empty and the caller
    stays suspended. *)
Definition get (q : Queue) : option (PyStr * Queue) :=
  match items q with
  | [] => None
  | x :: rest => Some (x, mkQueue (maxsize q) rest)
  end.

End Queue_.


(** ** Configuration (read-only, supplied by the caller) *)

(** One entry of [conf.TASKS]: a dict with the keys ['subject'], ['queue']
    and ['task']. *)
Record TaskSpec := mkTaskSpec {
  ts_subject : PyStr;
  ts_queue : option PyStr;
  ts_task : PyStr
}.

Record Conf := mkConf {
  NATS_URL : PyStr;
  WORKER_NAME : PyStr;
  TASKS : list TaskSpec;
  UVLOOP_ENABLED : bool
}.

(** A task function, known by its [__name__]. *)
Record TaskFn := mkTaskFn { fn_name : PyStr }.

(** ** The bus as the actor sees it *)

(** The callbacks the actor hands to [nats.subscribe]. *)
Inductive Callback :=
| HandleSignal                    (* self._handle_signal *)
| TaskCallback (task_fn : TaskFn). (* self._driver.create_task(task_fn) *)

Record Subscription := mkSubscription {
  sid : Z;
  sub_subject : PyStr;
  sub_queue : option PyStr;
  cb : Callback
}.

Record Connection := mkConnection {
  subs : list Subscription;
  ssid : Z
}.

(** Every call that reaches the bus, in call order. *)
Inductive BusCall :=
| CallConnect
| CallSubscribe (subject : PyStr) (queue : option PyStr) (cb : Callback)
| CallRequest (subject : PyStr) (payload : PyBytes)
| CallClose.

(** What a mock connection lets a test read back from the record. *)
Fixpoint subscribe_calls (cs : list BusCall)
  : list (PyStr * option PyStr * Callback) :=
  match cs with
  | [] => []
  | CallSubscribe s q f :: cs' => (s, q, f) :: subscribe_calls cs'
  | _ :: cs' => subscribe_calls cs'
  end.

Fixpoint request_calls (cs : list BusCall) : list (PyStr * PyBytes) :=
  match cs with
  | [] => []
  | CallRequest s p :: cs' => (s, p) :: request_calls cs'
  | _ :: cs' => request_calls cs'
  end.

Fixpoint close_calls (cs : list BusCall) : nat :=
  match cs with
  | [] => O
  | CallClose :: cs' => S (close_calls cs')
  | _ :: cs' => close_calls cs'
  end.

(** [NatsDriver]: holds at most one live connection. *)
Record Driver := mkDriver {
  urls : list PyStr;
  live : option Connection
}.

(** An event loop, by identity: [0] is the loop of [asyncio.get_event_loop()],
    [simple_eventloop] hands out the following ones. *)
Definition Loop := nat.

(** The values a Python-level signal handler is called with. *)
Inductive PyVal :=
| PyNone
| PyInt (n : Z)
| PyFrame.

(** The callables that are installed as signal handlers. *)
Inductive Callable :=
| BoundStop. (* the bound method self.stop *)

Inductive LogMsg :=
| LogGotWorkerSignal (worker_message : PyStr)
| LogTaskRegistered (subscription_id : Z) (subject : PyStr)
    (queue : option PyStr) (task : PyStr)
| LogStartRun
| LogStopSend
| LogStopCancelPending
| LogPendingTask (n : nat)
| LogPendingTaskDone (n : nat)
| LogStopClose
| LogBye
| LogRequestFinished (elapsed : Z).

(** What the environment decides: whether the broker accepts a
    connection, what [get_module] resolves a task path to, who answers a
    request and how late, the default timeout of the connection's
    [request], and the successive readings of [time.perf_counter]. *)
Record Env := mkEnv {
  broker_up : bool;
  get_module : PyStr -> option TaskFn;
  responder : PyStr -> PyBytes -> option (Z * PyBytes);
  default_timeout : Z;
  perf_counter : nat -> Z
}.

(** ** The mutable state *)

Record World := mkWorld {
  w_queue : Queue;              (* self._queue *)
  w_driver : Driver;            (* self._driver *)
  w_calls : list BusCall;       (* the calls made on the bus so far *)
  w_sigtab : gmap Z Callable;   (* the handlers set with signal.signal *)
  w_log : list LogMsg;          (* the logging output *)
  w_ticks : nat;                (* how often time.perf_counter was read *)
  w_loop_closed : bool;         (* self._loop.close() has run *)
  w_loops : nat                 (* event loops created so far *)
}.

Definition set_queue (q : Queue) (w : World) : World :=
  mkWorld q (w_driver w) (w_calls w) (w_sigtab w) (w_log w) (w_ticks w)
    (w_loop_closed w) (w_loops w).

Definition set_driver (d : Driver) (w : World) : World :=
  mkWorld (w_queue w) d (w_calls w) (w_sigtab w) (w_log w) (w_ticks w)
    (w_loop_closed w) (w_loops w).

Definition record_call (c : BusCall) (w : World) : World :=
  mkWorld (w_queue w) (w_driver w) (w_calls w ++ [c]) (w_sigtab w) (w_log w)
    (w_ticks w) (w_loop_closed w) (w_loops w).

Definition add_log (m : LogMsg) (w : World) : World :=
  mkWorld (w_queue w) (w_driver w) (w_calls w) (w_sigtab w) (w_log w ++ [m])
    (w_ticks w) (w_loop_closed w) (w_loops w).

Definition tick (w : World) : World :=
  mkWorld (w_queue w) (w_driver w) (w_calls w) (w_sigtab w) (w_log w)
    (S (w_ticks w)) (w_loop_closed w) (w_loops w).

Definition close_loop (w : World) : World :=
  mkWorld (w_queue w) (w_driver w) (w_calls w) (w_sigtab w) (w_log w)
    (w_ticks w) true (w_loops w).

Definition new_loop (w : World) : World :=
  mkWorld (w_queue w) (w_driver w) (w_calls w) (w_sigtab w) (w_log w)
    (w_ticks w) (w_loop_closed w) (S (w_loops w)).

(** ** Calls: state passing with exceptions *)

Definition M (A : Type) : Type := World -> Res A * World.

Global Instance M_ret : MRet M := fun A a w => (Ok a, w).

Global Instance M_bind : MBind M := fun A B f m w =>
  match m w with
  | (Ok a, w') => f a w'
  | (Raise e, w') => (Raise e, w')
  end.

Definition raise {A} (e : Exn) : M A := fun w => (Raise e, w).

Definition modify (f : World -> World) : M unit := fun w => (Ok tt, f w).

Definition logging (m : LogMsg) : M unit := modify (add_log m).

(** [await v] for a value that is not awaitable. *)
Definition await_value (v : PyVal) : M unit := raise TypeError.

Definition put_nowait (item : PyStr) : M PyVal := fun w =>
  match Queue_.put_nowait item (w_queue w) with
  | (Ok _, q) => (Ok PyNone, set_queue q w)
  | (Raise e, q) => (Raise e, set_queue q w)
  end.

(** ** The driver and its connection *)

Module NatsDriver.

(** Modelled from the spec: [nats_actor.core.driver.NatsDriver] is not
    among the sources.  The driver owns at most one live connection
    (section 3); a fresh driver has none. *)
Definition new (urls : list PyStr) : Driver := mkDriver urls None.

(** Modelled from the spec: [NatsDriver.get_connection] is not among the
    sources.  It "opens a connection (or reuses the live one)"
    (section 4.4); [connect] "fails with ConnectionError if the broker is
    unreachable" and does not retry (section 4.1). *)
Definition get_connection (E : Env) (loop : Loop) : M unit := fun w =>
  match live (w_driver w) with
  | Some _ => (Ok tt, w)
  | None =>
    let w1 := record_call CallConnect w in
    if broker_up E
    then (Ok tt, set_driver (mkDriver (urls (w_driver w)) (Some (mkConnection [] 0))) w1)
    else (Raise ConnectionError, w1)
  end.

(** Modelled from the spec: [NatsDriver.close] is not among the sources.
    It "unsubscribes all active subscriptions, [...] then releases the
    network session", and on an already-closed connection it "is a
    no-op, not an error" (section 4.1). *)
Definition close : M unit := fun w =>
  let w1 := record_call CallClose w in
  match live (w_driver w) with
  | Some _ => (Ok tt, set_driver (mkDriver (urls (w_driver w)) None) w1)
  | None => (Ok tt, w1)
  end.

(** Modelled from the spec: [NatsDriver.create_task] is not among the
    sources; it wraps a task function into the handler shape of a
    subscription callback (section 4.2). *)
Definition create_task (task_fn : TaskFn) : Callback := TaskCallback task_fn.

End NatsDriver.

Module Nats.

(** Modelled from the spec: [subscribe(subject, queue, handler)]
    registers the handler and returns a subscription id; it "fails with
    SubscriptionError if the connection is not live" (section 4.1). *)
Definition subscribe (subject : PyStr) (queue : option PyStr) (f : Callback)
  : M Z := fun w =>
  let w1 := record_call (CallSubscribe subject queue f) w in
  match live (w_driver w) with
  | Some c =>
    let n := ssid c + 1 in
    let c' := mkConnection (subs c ++ [mkSubscription n subject queue f]) n in
    (Ok n, set_driver (mkDriver (urls (w_driver w)) (Some c')) w1)
  | None => (Raise SubscriptionError, w1)
  end.

(** Modelled from the spec: [request(subject, payload, timeout)] "sends
    and waits for exactly one reply or fails with TimeoutError after
    timeout elapses" (section 4.1).  The responder of the environment
    answers after a latency, in the unit of the timeout. *)
Definition request_with_timeout (E : Env) (subject : PyStr)
  (payload : PyBytes) (timeout : Z) : M PyBytes := fun w =>
  match live (w_driver w) with
  | Some _ =>
    let w1 := record_call (CallRequest subject payload) w in
    match responder E subject payload with
    | Some (latency, reply) =>
      if latency <=? timeout then (Ok reply, w1) else (Raise TimeoutError, w1)
    | None => (Raise TimeoutError, w1)
    end
  | None => (Raise ConnectionError, w)
  end.

(** [nats.request(name, payload)]: the caller names no timeout, the
    connection uses its default. *)
Definition request (E : Env) (subject : PyStr) (payload : PyBytes)
  : M PyBytes :=
  request_with_timeout E subject payload (default_timeout E).

End Nats.

(** ** The actor *)

Definition SIGINT : Z := 2.
Definition SIGTERM : Z := 15.
Definition SIGCHLD : Z := 17.
Definition SIGURG : Z := 23.
Definition SIGWINCH : Z := 28.

(** The signals whose default action leaves the process running. *)
Definition ignored_by_default (signum : Z) : bool :=
  (signum =? SIGCHLD) || (signum =? SIGURG) || (signum =? SIGWINCH).

(** [KeyboardInterrupt] derives from [BaseException] only. *)
Definition is_base_exception (e : Exn) : bool :=
  match e with
  | KeyboardInterrupt => true
  | _ => false
  end.

(** What becomes of an exception raised by a Python-level signal handler
    while the event loop is idle.  The loop of asyncio lets it escape from
    [run_until_complete].  With [uvloop.install()] ([conf.UVLOOP_ENABLED]
    in [__init__]) the loop runs the handler itself and contains what it
    raises, except for a [BaseException], which it raises again. *)
Definition contained_by_loop (conf : Conf) (e : Exn) : bool :=
  UVLOOP_ENABLED conf && negb (is_base_exception e).

(** The coroutine [_run_in_loop], by the point at which it is suspended. *)
Inductive Coro :=
| CoroNew                  (* created, not yet started *)
| CoroWaiting              (* suspended in [await self._queue.get()] *)
| CoroStopping             (* left the loop, at [await self._driver.close()] *)
| CoroDone (r : Res unit). (* returned or raised *)

(** The states of section 4.4, read off the coroutine. *)
Inductive ActorState := INITIALIZED | RUNNING | STOPPING | STOPPED | FAILED.

Definition actor_state (c : Coro) : ActorState :=
  match c with
  | CoroNew => INITIALIZED
  | CoroWaiting => RUNNING
  | CoroStopping => STOPPING
  | CoroDone (Ok _) => STOPPED
  | CoroDone (Raise _) => FAILED
  end.

(** What happens to the process from outside. *)
Inductive Event :=
| EvControlMsg (data : PyBytes) (* a message published on the control subject *)
| EvSignal (signum : Z).        (* an OS signal delivered to the process *)

(** How a blocking call ends. *)
Inductive Outcome :=
| Finished (r : Res unit)
| Hangs        (* suspended for good: nothing is left to wake it *)
| Terminated.  (* the process fell to the default action of a signal *)

(** A member of [asyncio.Task.all_tasks()]: the task of [_run_in_loop], or
    another task, given by what awaiting it yields. *)
Inductive Task :=
| MainTask
| OtherTask (r : Res unit).

Module Actor.

(** [__init__]: the driver, the unbounded queue and the SIGTERM handler.
    [sigtab] is the signal table the process had before. *)
Definition __init__ (conf : Conf) (sigtab : gmap Z Callable) : World :=
  mkWorld (Queue_.new 0) (NatsDriver.new [NATS_URL conf]) []
    (<[SIGTERM := BoundStop]> sigtab) [] 0 false 1.

Definition stop : M unit :=
  put_nowait WORKER_CONTROL_SIGNAL_STOP ;; mret tt.

(** Calling a callable with positional arguments.  [stop] is declared
    [def stop(self)]: the bound method takes no argument. *)
Definition call (f : Callable) (args : list PyVal) : M unit :=
  match f, args with
  | BoundStop, [] => stop
  | BoundStop, _ :: _ => raise TypeError
  end.

(** The interpreter runs the handler of a signal as
    [handler(signum, frame)]; SIGINT without a handler of the actor's
    raises [KeyboardInterrupt]; a signal that is ignored by default passes
    unnoticed; [None] is the default action of the operating system on the
    process for the other signals. *)
Definition deliver_signal (signum : Z) (w : World) : option (Res unit * World) :=
  match w_sigtab w !! signum with
  | Some h => Some (call h [PyInt signum; PyFrame] w)
  | None =>
    if signum =? SIGINT then Some (Raise KeyboardInterrupt, w)
    else if ignored_by_default signum then Some (Ok tt, w)
    else None
  end.

(** The closure returned by [create_signal_handler], applied to a
    message with payload [data]. *)
Definition _handle_signal (data : PyBytes) : M unit :=
  worker_message ← (fun w => (bytes_decode data, w));
  logging (LogGotWorkerSignal worker_message) ;;
  v ← put_nowait worker_message;
  await_value v.

Definition create_signal_handler : PyBytes -> M unit := _handle_signal.

(** [nats_driver]: an async context manager without [try]; the code
    after [yield] runs only when the body leaves normally. *)
Definition nats_driver {A} (E : Env) (loop : option Loop) (body : M A) : M A :=
  let loop := match loop with Some l => l | None => O end in
  NatsDriver.get_connection E loop ;;
  a ← body;
  NatsDriver.close ;;
  mret a.

Definition register_task (E : Env) (task_spec : TaskSpec) : M unit :=
  task_fn ← (fun w =>
    match get_module E (ts_task task_spec) with
    | Some f => (Ok f, w)
    | None => (Raise ImportError, w)
    end);
  let callback := NatsDriver.create_task task_fn in
  subscription_id ← Nats.subscribe (ts_subject task_spec) (ts_queue task_spec) callback;
  logging (LogTaskRegistered subscription_id (ts_subject task_spec)
             (ts_queue task_spec) (fn_name task_fn)).

Fixpoint register_tasks (E : Env) (tasks : list TaskSpec) : M unit :=
  match tasks with
  | [] => mret tt
  | task_spec :: rest => register_task E task_spec ;; register_tasks E rest
  end.

(** [_run_in_loop] up to the [while]: entering [nats_driver], the control
    subscription, the task subscriptions. *)
Definition startup (E : Env) (conf : Conf) : M unit :=
  NatsDriver.get_connection E O ;;
  Nats.subscribe (WORKER_NAME conf) None HandleSignal ;;
  register_tasks E (TASKS conf).

(** [while signal != STOP: signal = await self._queue.get()] on the
    queued items: whether the loop was left, and what stays queued. *)
Fixpoint wait_for_stop (signal : PyStr) (queued : list PyStr) : bool * list PyStr :=
  if bool_decide (signal = WORKER_CONTROL_SIGNAL_STOP) then (true, queued)
  else match queued with
       | [] => (false, [])
       | x :: rest => wait_for_stop x rest
       end.

Definition while_loop (signal : PyStr) (w : World) : Coro * World :=
  let '(exited, rest) := wait_for_stop signal (items (w_queue w)) in
  (if exited then CoroStopping else CoroWaiting,
   set_queue (mkQueue (maxsize (w_queue w)) rest) w).

(** One turn of [_run_in_loop]: from where it is suspended to its next
    suspension. *)
Definition _run_in_loop (E : Env) (conf : Conf) (c : Coro) (w : World)
  : Coro * World :=
  match c with
  | CoroNew =>
    match startup E conf w with
    | (Ok _, w1) => while_loop WORKER_CONTROL_SIGNAL_START w1
    | (Raise e, w1) => (CoroDone (Raise e), w1)
    end
  | CoroWaiting =>
    match Queue_.get (w_queue w) with
    | None => (CoroWaiting, w)
    | Some (signal, q) => while_loop signal (set_queue q w)
    end
  | CoroStopping =>
    match NatsDriver.close w with
    | (r, w1) => (CoroDone r, w1)
    end
  | CoroDone r => (c, w)
  end.

(** The event loop runs the coroutine until it is done or nothing can
    wake it: three turns reach that point from any state. *)
Definition drive (E : Env) (conf : Conf) (c : Coro) (w : World) : Coro * World :=
  let '(c1, w1) := _run_in_loop E conf c w in
  let '(c2, w2) := _run_in_loop E conf c1 w1 in
  _run_in_loop E conf c2 w2.

(** A control message reaches [_handle_signal] when the live connection
    holds the control subscription.  The bus client contains what the
    callback raises. *)
Definition has_control_subscription (conf : Conf) (w : World) : bool :=
  match live (w_driver w) with
  | Some c =>
    existsb (fun s =>
      bool_decide (sub_subject s = WORKER_NAME conf)
      && match cb s with HandleSignal => true | TaskCallback _ => false end)
      (subs c)
  | None => false
  end.

Definition deliver_control (conf : Conf) (data : PyBytes) (w : World) : World :=
  if has_control_subscription conf w then snd (_handle_signal data w) else w.

(** [self._loop.run_until_complete(task)] for the task of
    [_run_in_loop], with the events that arrive while it runs.  An event
    arrives while the loop is idle, the coroutine being at rest. *)
Fixpoint run_until_complete (E : Env) (conf : Conf) (evs : list Event)
  (c : Coro) (w : World) : Outcome * Coro * World * list Event :=
  let '(c1, w1) := drive E conf c w in
  match c1 with
  | CoroDone r => (Finished r, c1, w1, evs)
  | _ =>
    match evs with
    | [] => (Hangs, c1, w1, [])
    | EvControlMsg data :: evs' =>
      run_until_complete E conf evs' c1 (deliver_control conf data w1)
    | EvSignal n :: evs' =>
      match deliver_signal n w1 with
      | Some (Ok _, w2) => run_until_complete E conf evs' c1 w2
      | Some (Raise e, w2) =>
        if contained_by_loop conf e then run_until_complete E conf evs' c1 w2
        else (Finished (Raise e), c1, w2, evs')
      | None => (Terminated, c1, w1, evs')
      end
    end
  end.

(** The [for task in pending_tasks] of the [finally] block.  Awaiting a
    task other than that of [_run_in_loop] is taken to end at once, before
    any further event arrives. *)
Fixpoint await_pending (E : Env) (conf : Conf) (n : nat) (tasks : list Task)
  (evs : list Event) (c : Coro) (w : World)
  : Outcome * Coro * World * list Event :=
  match tasks with
  | [] => (Finished (Ok tt), c, w, evs)
  | t :: tasks' =>
    let w0 := add_log (LogPendingTask n) w in
    let '(o, c1, w1, evs1) :=
      match t with
      | MainTask => run_until_complete E conf evs c w0
      | OtherTask r => (Finished r, c, w0, evs)
      end in
    match o with
    | Finished (Ok _) =>
      await_pending E conf (S n) tasks' evs1 c1 (add_log (LogPendingTaskDone n) w1)
    | Finished (Raise CancelledError) =>
      await_pending E conf (S n) tasks' evs1 c1 w1
    | _ => (o, c1, w1, evs1)
    end
  end.

(** [run]: [pending] is what [asyncio.Task.all_tasks()] returns in the
    [finally] block, [evs] the events that arrive during the call. *)
Definition run (E : Env) (conf : Conf) (pending : list Task)
  (evs : list Event) (w : World) : Outcome * World :=
  let w0 := add_log LogStartRun w in
  let '(o, c, w1, evs1) := run_until_complete E conf evs CoroNew w0 in
  match o with
  | Finished r =>
    let '(r1, w2) :=
      match r with
      | Raise KeyboardInterrupt => (logging LogStopSend ;; stop) w1
      | _ => (r, w1)
      end in
    let w3 := add_log LogStopCancelPending w2 in
    let '(o2, _, w4, _) := await_pending E conf O pending evs1 c w3 in
    match o2 with
    | Finished (Ok _) =>
      let w5 := close_loop (add_log LogStopClose w4) in
      match r1 with
      | Ok _ => (Finished (Ok tt), add_log LogBye w5)
      | Raise e => (Finished (Raise e), w5)
      end
    | _ => (o2, w4)
    end
  | _ => (o, w1)
  end.

Definition request (E : Env) (name : PyStr) (payload : PyBytes)
  (loop : option Loop) : M PyBytes :=
  nats_driver E loop (res ← Nats.request E name payload; mret res).

(** Modelled from the spec: [simple_eventloop] of [nats_actor.core.utils]
    is not among the sources; it is the context manager that hands
    [send_task] an event loop created for the call. *)
Definition simple_eventloop {A} (body : Loop -> M A) : M A := fun w =>
  body (w_loops w) (new_loop w).

(** The readings of [time.perf_counter] are floats in the program; here
    they are integers of an unspecified unit, and nothing below depends on
    the value that [send_task] logs. *)
Definition time_perf_counter (E : Env) : M Z := fun w =>
  (Ok (perf_counter E (w_ticks w)), tick w).

Definition send_task (E : Env) (name : PyStr) (payload : PyBytes) : M PyBytes :=
  simple_eventloop (fun loop =>
    now ← time_perf_counter E;
    response ← request E name payload (Some loop);
    t ← time_perf_counter E;
    let elapsed := (t - now) * 1000 in
    logging (LogRequestFinished elapsed) ;;
    mret response).

End Actor.

(** ** Vocabulary of the properties *)

(** Enqueuing a run of values, one [put_nowait] after the other. *)
Fixpoint enqueue_all (vs : list PyStr) (w : World) : World :=
  match vs with
  | [] => w
  | v :: vs' => enqueue_all vs' (snd (put_nowait v w))
  end.

Definition example_conf : Conf :=
  mkConf (pystr "nats://localhost:4222") (pystr "worker")
    [mkTaskSpec (pystr "foo.get") None (pystr "example.app.tasks.foo")] false.

(** One iteration of the [while]: the loop reads the head of the queue
    unless the value it holds is ["STOP"]. *)
Inductive loop_step : PyStr * list PyStr -> PyStr * list PyStr -> Prop :=
| loop_read (signal x : PyStr) (rest : list PyStr) :
    signal <> WORKER_CONTROL_SIGNAL_STOP ->
    loop_step (signal, x :: rest) (x, rest).

Definition example_env : Env :=
  mkEnv true (fun _ => Some (mkTaskFn (pystr "foo")))
    (fun _ _ => Some (10, [x6f; x6b])) 500 (fun n => Z.of_nat n).

Definition sub_key (s : Subscription) : PyStr * option PyStr * Callback :=
  (sub_subject s, sub_queue s, cb s).

Definition subscribe_call (k : PyStr * option PyStr * Callback) : BusCall :=
  CallSubscribe k.1.1 k.1.2 k.2.

(** The subscription that [_run_in_loop] asks for a task spec whose task
    path resolves to [task_fn]. *)
Definition task_subscription (task_spec : TaskSpec) (task_fn : TaskFn)
  : PyStr * option PyStr * Callback :=
  (ts_subject task_spec, ts_queue task_spec, NatsDriver.create_task task_fn).

(** Where a ["STOP"] comes from. *)
Inductive StopSource :=
| ViaStop  (* a call of [Actor.stop] *)
| ViaBus.  (* a message [b'STOP'] on the control subject *)

Definition STOP_payload : PyBytes := [x53; x54; x4f; x50].

Definition send_stop (conf : Conf) (src : StopSource) (w : World) : World :=
  match src with
  | ViaStop => (Actor.stop w).2
  | ViaBus => Actor.deliver_control conf STOP_payload w
  end.

(** The actor at rest in RUNNING: suspended on its empty, unbounded queue,
    with the control subscription in place. *)
Definition Running (conf : Conf) (w : World) : Prop :=
  maxsize (w_queue w) <= 0 /\
  items (w_queue w) = [] /\
  Actor.has_control_subscription conf w = true.

Definition example_running : World :=
  (Actor.drive example_env example_conf CoroNew (Actor.__init__ example_conf ∅)).2.

(** What a caller who names [timeout] is promised by a [request] that
    honours it. *)
Definition reply_within (E : Env) (subject : PyStr) (payload : PyBytes)
  (timeout : Z) : Res PyBytes :=
  match responder E subject payload with
  | Some (latency, reply) =>
    if latency <=? timeout then Ok reply else Raise TimeoutError
  | None => Raise TimeoutError
  end.

(** The world in which [request] finds its connection: the live one, or
    one opened for the call. *)
Definition connected (w : World) : World :=
  match live (w_driver w) with
  | Some _ => w
  | None =>
    set_driver (mkDriver (urls (w_driver w)) (Some (mkConnection [] 0)))
      (record_call CallConnect w)
  end.

(** Two worlds that agree on the queue, the driver and the bus record. *)
Definition same_bus (w1 w2 : World) : Prop :=
  w_queue w1 = w_queue w2 /\ w_driver w1 = w_driver w2 /\ w_calls w1 = w_calls w2.

(** A call that leaves the control queue alone and never raises
    [KeyboardInterrupt]. *)
Definition bus_only {A} (m : M A) : Prop :=
  forall w, w_queue (m w).2 = w_queue w /\ (m w).1 <> Raise KeyboardInterrupt.

(** A pending task whose [run_until_complete] does not leave the
    [finally] block: the task of [_run_in_loop], or one that is done or
    cancelled. *)
Definition benign (t : Task) : Prop :=
  match t with
  | MainTask => True
  | OtherTask r => r = Ok tt \/ r = Raise CancelledError
  end.

(** The two ways in which [run] reaches its [finally] block on the paths
    of C9: the coroutine is done, or it is still suspended and [stop] has
    just queued ["STOP"]. *)
Definition at_finally (c : Coro) (w : World) : Prop :=
  maxsize (w_queue w) <= 0 /\
  (c = CoroDone (Ok tt) \/
   (c = CoroWaiting /\ items (w_queue w) = [WORKER_CONTROL_SIGNAL_STOP])).

(** A control payload that does not decode to ["STOP"]. *)
Definition not_stop (data : PyBytes) : Prop :=
  utf8_decode data <> Some WORKER_CONTROL_SIGNAL_STOP.

(** The actor with its control subscription in place and no ["STOP"]
    among the values queued on its unbounded queue. *)
Definition Serving (conf : Conf) (w : World) : Prop :=
  maxsize (w_queue w) <= 0 /\
  (WORKER_CONTROL_SIGNAL_STOP ∉ items (w_queue w)) /\
  Actor.has_control_subscription conf w = true.

(** The subscriptions [_run_in_loop] asks for: the control subject, then
    the task specs paired with the functions their paths resolve to. *)
Definition created_subscriptions (conf : Conf) (tasks : list TaskSpec)
  (fns : list TaskFn) : list (PyStr * option PyStr * Callback) :=
  (WORKER_NAME conf, None, HandleSignal) :: zip_with task_subscription tasks fns.

(** Two worlds that differ at most in the logging output. *)
Definition same_but_log (w1 w2 : World) : Prop :=
  w_queue w1 = w_queue w2 /\ w_driver w1 = w_driver w2 /\
  w_calls w1 = w_calls w2 /\ w_sigtab w1 = w_sigtab w2 /\
  w_ticks w1 = w_ticks w2 /\ w_loop_closed w1 = w_loop_closed w2 /\
  w_loops w1 = w_loops w2.

(** A call that leaves a component [proj] of the world as it was. *)
Definition keeps {A B} (proj : World -> B) (m : M A) : Prop :=
  forall w, proj (m w).2 = proj w.

(** The components that only [run], [send_task] and [__init__] touch. *)
Definition process_state (w : World) : gmap Z Callable * nat * bool * nat :=
  (w_sigtab w, w_ticks w, w_loop_closed w, w_loops w).

(** A Unicode scalar value: a code point that is not a surrogate. *)
Definition is_scalar_value (cp : Z) : Prop :=
  0 <= cp <= 0x10FFFF /\ ~ (0xD800 <= cp <= 0xDFFF).

(** Every value on the control queue is a string of scalar values. *)
Definition queue_wellformed (w : World) : Prop :=
  Forall (Forall is_scalar_value) (items (w_queue w)).

(** ** [tools/pub.py]: the load generator *)

(** What [publish_msg] acts on: the calls [worker.publish(name, payload)]
    it has made, the lines it has printed, each by the elapsed time and the
    index [i] it reports, and how often it has read [time.perf_counter].
    The worker object comes from a module that is not among the sources;
    its [publish] is taken to record the call and return. *)
Record PubWorld := mkPubWorld {
  pw_published : list (PyStr * PyBytes);
  pw_printed : list (Z * Z);
  pw_ticks : nat
}.

(** How [publish_msg] ends: it returns, or the division [1000 / elapsed]
    raises [ZeroDivisionError]. *)
Inductive PubOutcome :=
| PubReturned
| PubZeroDivisionError.

(** The body of [for i in range(10000)], over the indices still to come;
    [now] is the local variable of that name.  [clock] gives the successive
    readings of [time.perf_counter]; only whether two readings differ
    matters here. *)
Fixpoint publish_loop (clock : nat -> Z) (name : PyStr) (payload : PyBytes)
  (range : list Z) (now : Z) (st : PubWorld) : PubOutcome * PubWorld :=
  match range with
  | [] => (PubReturned, st)
  | i :: rest =>
    let st1 := mkPubWorld (pw_published st ++ [(name, payload)]) (pw_printed st)
                 (pw_ticks st) in
    if i mod 1000 =? 0 then
      let elapsed := clock (pw_ticks st1) - now in
      let st2 := mkPubWorld (pw_published st1) (pw_printed st1) (S (pw_ticks st1)) in
      if elapsed =? 0 then (PubZeroDivisionError, st2)
      else
        let st3 := mkPubWorld (pw_published st2) (pw_printed st2 ++ [(elapsed, i)])
                     (pw_ticks st2) in
        let now' := clock (pw_ticks st3) in
        publish_loop clock name payload rest now'
          (mkPubWorld (pw_published st3) (pw_printed st3) (S (pw_ticks st3)))
    else publish_loop clock name payload rest now st1
  end.

Definition publish_msg (clock : nat -> Z) (name : PyStr) (payload : PyBytes)
  (st : PubWorld) : PubOutcome * PubWorld :=
  let now := clock (pw_ticks st) in
  publish_loop clock name payload (seqZ 0 10000) now
    (mkPubWorld (pw_published st) (pw_printed st) (S (pw_ticks st))).

(** The indices at which [publish_msg] reports. *)
Definition reported (range : list Z) : list Z :=
  filter (fun i => i mod 1000 = 0) range.

(** * Properties *)

(** ** The codec and the queue *)

Example utf8_decode_STOP :
  utf8_decode [x53; x54; x4f; x50] = Some WORKER_CONTROL_SIGNAL_STOP.
Proof. reflexivity. Qed.

Example utf8_decode_euro_sign : utf8_decode [xe2; x82; xac] = Some [0x20AC].
Proof. reflexivity. Qed.

Example utf8_decode_rejects_overlong : utf8_decode [xc0; x80] = None.
Proof. reflexivity. Qed.

Example utf8_decode_rejects_surrogate : utf8_decode [xed; xa0; x80] = None.
Proof. reflexivity. Qed.

Lemma STOP_is_not_START :
  WORKER_CONTROL_SIGNAL_START <> WORKER_CONTROL_SIGNAL_STOP.
Proof. discriminate. Qed.

Lemma full_unbounded (q : Queue) : maxsize q <= 0 -> Queue_.full q = false.
Proof.
  intros H. unfold Queue_.full.
  destruct (maxsize q <=? 0) eqn:Hle; [reflexivity | lia].
Qed.

Lemma put_nowait_unbounded (item : PyStr) (w : World) :
  maxsize (w_queue w) <= 0 ->
  put_nowait item w =
    (Ok PyNone, set_queue (mkQueue (maxsize (w_queue w)) (items (w_queue w) ++ [item])) w).
Proof.
  intros H. unfold put_nowait, Queue_.put_nowait.
  rewrite (full_unbounded _ H). reflexivity.
Qed.

Lemma stop_unbounded (w : World) :
  maxsize (w_queue w) <= 0 ->
  Actor.stop w =
    (Ok tt, set_queue (mkQueue (maxsize (w_queue w))
                         (items (w_queue w) ++ [WORKER_CONTROL_SIGNAL_STOP])) w).
Proof.
  intros H. unfold Actor.stop, mbind, M_bind.
  rewrite (put_nowait_unbounded _ _ H). reflexivity.
Qed.

Lemma enqueue_all_unbounded (vs : list PyStr) (w : World) :
  maxsize (w_queue w) <= 0 ->
  enqueue_all vs w =
    set_queue (mkQueue (maxsize (w_queue w)) (items (w_queue w) ++ vs)) w.
Proof.
  revert w. induction vs as [|v vs IH]; intros w H; simpl.
  - rewrite app_nil_r. destruct w as [[m it] d c s l t lc n]. reflexivity.
  - rewrite (put_nowait_unbounded _ _ H). simpl.
    rewrite IH by (simpl; exact H). simpl.
    rewrite <- app_assoc. reflexivity.
Qed.

(** C10: [Actor.stop] returns at once and never raises [QueueFull]: the
    queue that [__init__] builds is unbounded, so after any number of
    values already queued the enqueue of ["STOP"] succeeds and lands behind
    them. *)
Theorem C10_stop_never_full (conf : Conf) (tab : gmap Z Callable) (vs : list PyStr) :
  Actor.stop (enqueue_all vs (Actor.__init__ conf tab)) =
    (Ok tt, enqueue_all (vs ++ [WORKER_CONTROL_SIGNAL_STOP]) (Actor.__init__ conf tab)).
Proof.
  assert (Hmax : maxsize (w_queue (Actor.__init__ conf tab)) <= 0) by (simpl; lia).
  rewrite !enqueue_all_unbounded by exact Hmax.
  rewrite stop_unbounded by (simpl; lia).
  reflexivity.
Qed.

(** ** The SIGTERM handler *)

(** C4: delivering SIGTERM to a constructed actor calls the installed
    handler as [handler(signum, frame)]; [stop] takes no argument, so the
    call raises [TypeError] and nothing is enqueued. *)
Theorem C4_sigterm_handler_raises (conf : Conf) (tab : gmap Z Callable) :
  Actor.deliver_signal SIGTERM (Actor.__init__ conf tab) =
    Some (Raise TypeError, Actor.__init__ conf tab).
Proof.
  unfold Actor.deliver_signal. simpl.
  rewrite lookup_insert_eq. reflexivity.
Qed.

(** [__init__] maps SIGTERM and no other signal. *)
Lemma init_maps_only_sigterm (conf : Conf) (tab : gmap Z Callable) (n : Z) :
  n <> SIGTERM ->
  w_sigtab (Actor.__init__ conf tab) !! n = tab !! n.
Proof. intros H. simpl. rewrite lookup_insert_ne; [reflexivity | congruence]. Qed.

(** Called without arguments, as [run] does, [stop] does enqueue. *)
Lemma call_stop_no_args (w : World) :
  maxsize (w_queue w) <= 0 ->
  items (w_queue (snd (Actor.call BoundStop [] w))) =
    items (w_queue w) ++ [WORKER_CONTROL_SIGNAL_STOP].
Proof. intros H. simpl. rewrite stop_unbounded by exact H. reflexivity. Qed.

(** No signal ever changes the world through a Python-level handler. *)
Lemma deliver_signal_world (n : Z) (w w' : World) (r : Res unit) :
  Actor.deliver_signal n w = Some (r, w') -> w' = w.
Proof.
  unfold Actor.deliver_signal. intros H.
  destruct (w_sigtab w !! n) as [[]|].
  - simpl in H. inversion H; subst. reflexivity.
  - destruct (n =? SIGINT); [inversion H; subst; reflexivity|].
    destruct (ignored_by_default n); inversion H; subst. reflexivity.
Qed.

(** ** The control-subject handler *)

(** Bytes below 0x80 decode to themselves. *)
Lemma utf8_decode_ascii (data : PyBytes) :
  Forall (fun b => byte_val b < 0x80) data ->
  utf8_decode data = Some (map byte_val data).
Proof.
  induction 1 as [|b data Hb _ IH]; [reflexivity|].
  cbn [utf8_decode map].
  destruct (byte_val b <? 0x80) eqn:Hlt; [|lia].
  rewrite IH. reflexivity.
Qed.

(** After the enqueue the handler awaits the [None] that [put_nowait]
    returned, which raises. *)
Lemma handle_signal_result (data : PyBytes) (s : PyStr) (w : World) :
  maxsize (w_queue w) <= 0 ->
  utf8_decode data = Some s ->
  Actor._handle_signal data w =
    (Raise TypeError,
     set_queue (mkQueue (maxsize (w_queue w)) (items (w_queue w) ++ [s]))
       (add_log (LogGotWorkerSignal s) w)).
Proof.
  intros Hmax Hdec.
  unfold Actor._handle_signal, mbind, M_bind, bytes_decode.
  rewrite Hdec. simpl.
  rewrite put_nowait_unbounded by (simpl; exact Hmax).
  reflexivity.
Qed.

(** C5 (amended): a payload that is well-formed UTF-8 is decoded and the
    decoded text, whatever it is, is appended to the control queue; a
    payload that is not well-formed UTF-8 makes the decoding raise
    [UnicodeDecodeError] and leaves the queue and the rest of the state as
    they were. *)
Theorem C5_handler_enqueues_decoded (data : PyBytes) (w : World) :
  maxsize (w_queue w) <= 0 ->
  match utf8_decode data with
  | Some s =>
    items (w_queue (snd (Actor._handle_signal data w))) = items (w_queue w) ++ [s]
  | None => Actor._handle_signal data w = (Raise UnicodeDecodeError, w)
  end.
Proof.
  intros Hmax. destruct (utf8_decode data) as [s|] eqn:Hdec.
  - rewrite (handle_signal_result data s w Hmax Hdec). reflexivity.
  - unfold Actor._handle_signal, mbind, M_bind, bytes_decode.
    rewrite Hdec. reflexivity.
Qed.

Lemma C5_handler_enqueues_decoded_witness :
  items (w_queue (snd (Actor._handle_signal [x53; x54; x4f; x50]
                         (Actor.__init__ example_conf ∅)))) =
    [WORKER_CONTROL_SIGNAL_STOP].
Proof.
  apply (C5_handler_enqueues_decoded [x53; x54; x4f; x50]
           (Actor.__init__ example_conf ∅)).
  simpl. lia.
Defined.

(** C5 as stated fails on the one-byte payload [b'\xff']: no value is
    enqueued. *)
Lemma C5_invalid_utf8_not_enqueued :
  let w := Actor.__init__ example_conf ∅ in
  ~ exists s : PyStr,
      items (w_queue (snd (Actor._handle_signal [xff] w))) = items (w_queue w) ++ [s].
Proof. simpl. intros [s H]. discriminate H. Qed.

(** ** The wait loop *)

(** Whatever the loop has read, it read from the front, in order, and none
    of the values before the last one was ["STOP"]. *)
Lemma loop_steps_fifo (st st' : PyStr * list PyStr) :
  rtc loop_step st st' ->
  exists consumed,
    st.2 = consumed ++ st'.2 /\
    last (st.1 :: consumed) = Some st'.1 /\
    (consumed <> [] -> WORKER_CONTROL_SIGNAL_STOP ∉ removelast (st.1 :: consumed)).
Proof.
  induction 1 as [[s q]|[s q] [s1 q1] [s2 q2] Hstep _ IH].
  - exists []. simpl. split; [reflexivity|]. split; [reflexivity|]. congruence.
  - destruct IH as (consumed & Hq & Hlast & Hno). simpl in *.
    inversion Hstep; subst. exists (s1 :: consumed). simpl.
    split; [reflexivity|]. split.
    + destruct consumed; simpl in *; exact Hlast.
    + intros _. destruct consumed as [|y consumed'].
      * simpl. rewrite list_elem_of_singleton. congruence.
      * rewrite not_elem_of_cons. split; [congruence|].
        apply Hno. discriminate.
Qed.

(** The function follows the steps. *)
Lemma wait_for_stop_step (st st' : PyStr * list PyStr) :
  rtc loop_step st st' ->
  Actor.wait_for_stop st.1 st.2 = Actor.wait_for_stop st'.1 st'.2.
Proof.
  induction 1 as [|[s q] [s1 q1] [s2 q2] Hstep _ IH]; [reflexivity|].
  rewrite <- IH. inversion Hstep; subst.
  cbn [fst snd Actor.wait_for_stop].
  rewrite bool_decide_eq_false_2 by assumption. reflexivity.
Qed.

Lemma wait_for_stop_no_stop (vs : list PyStr) (signal : PyStr) :
  signal <> WORKER_CONTROL_SIGNAL_STOP ->
  WORKER_CONTROL_SIGNAL_STOP ∉ vs ->
  Actor.wait_for_stop signal vs = (false, []).
Proof.
  revert signal. induction vs as [|v vs IH]; intros signal Hs Hno.
  - cbn [Actor.wait_for_stop]. rewrite bool_decide_eq_false_2 by assumption.
    reflexivity.
  - apply not_elem_of_cons in Hno as [Hv Hno].
    cbn [Actor.wait_for_stop]. rewrite bool_decide_eq_false_2 by assumption.
    apply IH; [congruence | assumption].
Qed.

Lemma wait_for_stop_first_stop (pre post : list PyStr) (signal : PyStr) :
  signal <> WORKER_CONTROL_SIGNAL_STOP ->
  WORKER_CONTROL_SIGNAL_STOP ∉ pre ->
  Actor.wait_for_stop signal (pre ++ WORKER_CONTROL_SIGNAL_STOP :: post) = (true, post).
Proof.
  revert signal. induction pre as [|v pre IH]; intros signal Hs Hno.
  - cbn [app Actor.wait_for_stop]. rewrite bool_decide_eq_false_2 by assumption.
    destruct post; cbn [Actor.wait_for_stop];
      rewrite bool_decide_eq_true_2 by reflexivity; reflexivity.
  - apply not_elem_of_cons in Hno as [Hv Hno].
    cbn [app Actor.wait_for_stop]. rewrite bool_decide_eq_false_2 by assumption.
    apply IH; [congruence | assumption].
Qed.

(** Every list either has no ["STOP"] or splits at its first one. *)
Lemma split_first_stop (vs : list PyStr) :
  WORKER_CONTROL_SIGNAL_STOP ∉ vs \/
  exists pre post,
    vs = pre ++ WORKER_CONTROL_SIGNAL_STOP :: post /\
    WORKER_CONTROL_SIGNAL_STOP ∉ pre.
Proof.
  induction vs as [|v vs IH].
  - left. apply not_elem_of_nil.
  - destruct (decide (v = WORKER_CONTROL_SIGNAL_STOP)) as [->|Hv].
    + right. exists [], vs. split; [reflexivity | apply not_elem_of_nil].
    + destruct IH as [Hno | (pre & post & -> & Hno)].
      * left. apply not_elem_of_cons. split; [congruence | assumption].
      * right. exists (v :: pre), post. split; [reflexivity|].
        apply not_elem_of_cons. split; [congruence | assumption].
Qed.

Lemma set_queue_same (w : World) :
  set_queue (mkQueue (maxsize (w_queue w)) (items (w_queue w))) w = w.
Proof. destruct w as [[m it] d c s l t lc n]. reflexivity. Qed.

(** Resuming the suspended [get] is the same as entering the [while] with
    the seed value ["START"]. *)
Lemma resume_waiting (E : Env) (conf : Conf) (w : World) :
  Actor._run_in_loop E conf CoroWaiting w =
    Actor.while_loop WORKER_CONTROL_SIGNAL_START w.
Proof.
  unfold Actor._run_in_loop, Actor.while_loop, Queue_.get.
  destruct (items (w_queue w)) as [|x rest] eqn:Hit.
  - cbn [Actor.wait_for_stop].
    rewrite bool_decide_eq_false_2 by exact STOP_is_not_START.
    rewrite <- Hit, set_queue_same. reflexivity.
  - cbn [Actor.wait_for_stop].
    rewrite bool_decide_eq_false_2 by exact STOP_is_not_START.
    unfold Actor.while_loop. simpl. destruct (Actor.wait_for_stop x rest).
    reflexivity.
Qed.

(** C2: resumed with the values [vs] in its queue, the loop reads them
    from the front.  Without a ["STOP"] among them it reads them all, stays
    suspended and the actor stays RUNNING; with one, it reads up to the
    first ["STOP"], leaves what follows queued and goes on to the
    teardown.  It leaves the loop exactly when ["STOP"] is among the
    values. *)
Theorem C2_loop_reads_fifo_until_stop (E : Env) (conf : Conf) (w : World) :
  let vs := items (w_queue w) in
  let r := Actor._run_in_loop E conf CoroWaiting w in
  (WORKER_CONTROL_SIGNAL_STOP ∉ vs ->
     r = (CoroWaiting, set_queue (mkQueue (maxsize (w_queue w)) []) w)) /\
  (forall pre post,
     vs = pre ++ WORKER_CONTROL_SIGNAL_STOP :: post ->
     WORKER_CONTROL_SIGNAL_STOP ∉ pre ->
     r = (CoroStopping, set_queue (mkQueue (maxsize (w_queue w)) post) w)) /\
  (actor_state r.1 = RUNNING <-> WORKER_CONTROL_SIGNAL_STOP ∉ vs) /\
  (r.1 = CoroStopping <-> WORKER_CONTROL_SIGNAL_STOP ∈ vs).
Proof.
  intros vs r. subst r. rewrite resume_waiting. unfold Actor.while_loop.
  change (items (w_queue w)) with vs. clearbody vs.
  destruct (split_first_stop vs) as [Hno | (pre & post & -> & Hno)].
  - rewrite (wait_for_stop_no_stop vs _ STOP_is_not_START Hno).
    split; [reflexivity|]. split.
    + intros pre post Hvs _. exfalso. apply Hno. rewrite Hvs.
      apply elem_of_app. right. apply list_elem_of_here.
    + simpl. split; [tauto|].
      split; [discriminate | intros Hin; exfalso; exact (Hno Hin)].
  - assert (Hin : WORKER_CONTROL_SIGNAL_STOP ∈ pre ++ WORKER_CONTROL_SIGNAL_STOP :: post).
    { apply elem_of_app. right. apply list_elem_of_here. }
    rewrite (wait_for_stop_first_stop pre post _ STOP_is_not_START Hno).
    split; [intros Hno'; exfalso; exact (Hno' Hin)|]. split.
    + intros pre' post' Hvs' Hno'.
      pose proof (wait_for_stop_first_stop pre post _ STOP_is_not_START Hno) as H1.
      rewrite Hvs' in H1.
      rewrite (wait_for_stop_first_stop pre' post' _ STOP_is_not_START Hno') in H1.
      congruence.
    + simpl. split; [|tauto].
      split; [discriminate | intros Hno'; exfalso; exact (Hno' Hin)].
Qed.

Lemma C2_loop_reads_fifo_until_stop_witness :
  let w := enqueue_all [pystr "START"; pystr "bogus"; pystr "STOP"; pystr "late"]
             (Actor.__init__ example_conf ∅) in
  Actor._run_in_loop example_env example_conf CoroWaiting w =
    (CoroStopping, set_queue (mkQueue 0 [pystr "late"]) w).
Proof.
  intros w.
  refine (proj1 (proj2 (C2_loop_reads_fifo_until_stop example_env example_conf w))
            [pystr "START"; pystr "bogus"] [pystr "late"] _ _).
  - reflexivity.
  - refine (bool_decide_unpack _ _). vm_compute. exact I.
Defined.

(** ** Startup *)

Lemma subscribe_calls_app (a b : list BusCall) :
  subscribe_calls (a ++ b) = subscribe_calls a ++ subscribe_calls b.
Proof.
  induction a as [|[] a IH]; simpl; rewrite ?IH; reflexivity.
Qed.

Lemma request_calls_app (a b : list BusCall) :
  request_calls (a ++ b) = request_calls a ++ request_calls b.
Proof.
  induction a as [|[] a IH]; simpl; rewrite ?IH; reflexivity.
Qed.

Lemma close_calls_app (a b : list BusCall) :
  close_calls (a ++ b) = (close_calls a + close_calls b)%nat.
Proof.
  induction a as [|[] a IH]; simpl; rewrite ?IH; reflexivity.
Qed.

Lemma subscribe_calls_map (ks : list (PyStr * option PyStr * Callback)) :
  subscribe_calls (map subscribe_call ks) = ks.
Proof.
  induction ks as [|[[s q] f] ks IH]; simpl; [reflexivity|].
  rewrite IH. reflexivity.
Qed.

Lemma subscribe_live (subject : PyStr) (queue : option PyStr) (f : Callback)
  (w : World) (c : Connection) :
  live (w_driver w) = Some c ->
  Nats.subscribe subject queue f w =
    (Ok (ssid c + 1),
     set_driver (mkDriver (urls (w_driver w))
                   (Some (mkConnection
                            (subs c ++ [mkSubscription (ssid c + 1) subject queue f])
                            (ssid c + 1))))
       (record_call (CallSubscribe subject queue f) w)).
Proof. intros H. unfold Nats.subscribe. rewrite H. reflexivity. Qed.

(** The [for] loop over the task specs: one subscription per spec, in the
    order of the configuration, and nothing else on the bus. *)
Lemma register_tasks_ok (E : Env) (tasks : list TaskSpec) (fns : list TaskFn) :
  Forall2 (fun ts f => get_module E (ts_task ts) = Some f) tasks fns ->
  forall (w : World) (c : Connection),
    live (w_driver w) = Some c ->
    exists w' c',
      Actor.register_tasks E tasks w = (Ok tt, w') /\
      w_calls w' = w_calls w ++ map subscribe_call (zip_with task_subscription tasks fns) /\
      live (w_driver w') = Some c' /\
      map sub_key (subs c') =
        map sub_key (subs c) ++ zip_with task_subscription tasks fns /\
      w_queue w' = w_queue w.
Proof.
  induction 1 as [|ts f tasks fns Hf _ IH]; intros w c Hlive.
  - exists w, c. simpl. rewrite !app_nil_r. auto.
  - cbn [Actor.register_tasks]. unfold mbind, M_bind, Actor.register_task.
    rewrite Hf. unfold mbind, M_bind.
    rewrite (subscribe_live _ _ _ w c Hlive).
    cbn [logging modify].
    match goal with
    | |- context [Actor.register_tasks E tasks ?w1] =>
      destruct (IH w1 (mkConnection
                         (subs c ++ [mkSubscription (ssid c + 1) (ts_subject ts)
                                       (ts_queue ts) (NatsDriver.create_task f)])
                         (ssid c + 1)) eq_refl)
        as (w' & c' & Hrun & Hcalls & Hlive' & Hsubs & Hq)
    end.
    exists w', c'. rewrite Hrun. split; [reflexivity|].
    split; [|split; [exact Hlive'|split]].
    + rewrite Hcalls. simpl. rewrite <- app_assoc. reflexivity.
    + rewrite Hsubs. simpl. rewrite map_app, <- app_assoc. reflexivity.
    + rewrite Hq. reflexivity.
Qed.

(** The part of [_run_in_loop] before the [while], on a fresh actor. *)
Lemma startup_ok (E : Env) (conf : Conf) (w : World) (fns : list TaskFn) :
  broker_up E = true ->
  live (w_driver w) = None ->
  Forall2 (fun ts f => get_module E (ts_task ts) = Some f) (TASKS conf) fns ->
  let created :=
    (WORKER_NAME conf, None, HandleSignal)
      :: zip_with task_subscription (TASKS conf) fns in
  exists w1 c,
    Actor.startup E conf w = (Ok tt, w1) /\
    w_calls w1 = w_calls w ++ CallConnect :: map subscribe_call created /\
    live (w_driver w1) = Some c /\
    map sub_key (subs c) = created /\
    w_queue w1 = w_queue w.
Proof.
  intros Hup Hnone Hfns created.
  unfold Actor.startup, mbind, M_bind, NatsDriver.get_connection.
  rewrite Hnone, Hup.
  erewrite (subscribe_live _ _ _ _ (mkConnection [] 0)) by reflexivity.
  match goal with
  | |- context [Actor.register_tasks E (TASKS conf) ?w1] =>
    destruct (register_tasks_ok E _ _ Hfns w1 _ eq_refl)
      as (w2 & c2 & Hrun & Hcalls & Hlive & Hsubs & Hq)
  end.
  exists w2, c2. rewrite Hrun. split; [reflexivity|].
  split; [|split; [exact Hlive | split; [exact Hsubs | exact Hq]]].
  rewrite Hcalls. simpl. rewrite <- !app_assoc. reflexivity.
Qed.

(** C1: on a fresh actor and a configuration whose [N] task paths all
    resolve, the first turn of [_run_in_loop] connects and then makes
    exactly [N + 1] subscribe calls: the control subject first, then the
    task subjects in the order of the configuration; they are the
    subscriptions of the live connection, in that order. *)
Theorem C1_start_subscribes_control_first (E : Env) (conf : Conf) (w : World)
  (fns : list TaskFn) :
  broker_up E = true ->
  live (w_driver w) = None ->
  Forall2 (fun ts f => get_module E (ts_task ts) = Some f) (TASKS conf) fns ->
  let w' := (Actor._run_in_loop E conf CoroNew w).2 in
  let created :=
    (WORKER_NAME conf, None, HandleSignal)
      :: zip_with task_subscription (TASKS conf) fns in
  w_calls w' = w_calls w ++ CallConnect :: map subscribe_call created /\
  subscribe_calls (w_calls w') = subscribe_calls (w_calls w) ++ created /\
  length created = S (length (TASKS conf)) /\
  exists c, live (w_driver w') = Some c /\ map sub_key (subs c) = created.
Proof.
  intros Hup Hnone Hfns w' created.
  destruct (startup_ok E conf w fns Hup Hnone Hfns)
    as (w1 & c & Hrun & Hcalls & Hlive & Hsubs & _).
  fold created in Hcalls, Hsubs.
  assert (Hw' : w_calls w' = w_calls w1 /\ w_driver w' = w_driver w1).
  { subst w'. unfold Actor._run_in_loop. rewrite Hrun. unfold Actor.while_loop.
    destruct (Actor.wait_for_stop _ _). split; reflexivity. }
  destruct Hw' as [Hc Hd]. rewrite Hc, Hd, Hcalls.
  split; [reflexivity|]. split; [|split].
  - rewrite subscribe_calls_app. simpl. rewrite subscribe_calls_map. reflexivity.
  - subst created. simpl. f_equal.
    rewrite length_zip_with. apply Forall2_length in Hfns. lia.
  - exists c. split; assumption.
Qed.

Lemma C1_start_subscribes_control_first_witness :
  subscribe_calls
    (w_calls (Actor._run_in_loop example_env example_conf CoroNew
                (Actor.__init__ example_conf ∅)).2) =
    [(pystr "worker", None, HandleSignal);
     (pystr "foo.get", None, TaskCallback (mkTaskFn (pystr "foo")))].
Proof.
  refine (proj1 (proj2 (C1_start_subscribes_control_first example_env example_conf
                          (Actor.__init__ example_conf ∅)
                          [mkTaskFn (pystr "foo")] _ _ _))).
  - reflexivity.
  - reflexivity.
  - repeat constructor.
Defined.

(** ** Stopping *)

Lemma close_spec (w : World) :
  NatsDriver.close w =
    (Ok tt, set_driver (mkDriver (urls (w_driver w)) None) (record_call CallClose w)).
Proof.
  unfold NatsDriver.close. destruct (live (w_driver w)) eqn:Hlive; [reflexivity|].
  destruct w as [q [u l] c s lg t lc n]. simpl in *. subst l. reflexivity.
Qed.

(** [close] on a driver without a live connection: no error, and the
    driver stays as it is. *)
Lemma close_idempotent (w : World) :
  live (w_driver w) = None ->
  NatsDriver.close w = (Ok tt, record_call CallClose w).
Proof. intros H. unfold NatsDriver.close. rewrite H. reflexivity. Qed.

Lemma run_in_loop_waiting_stop (E : Env) (conf : Conf) (w : World)
  (pre post : list PyStr) :
  items (w_queue w) = pre ++ WORKER_CONTROL_SIGNAL_STOP :: post ->
  WORKER_CONTROL_SIGNAL_STOP ∉ pre ->
  Actor._run_in_loop E conf CoroWaiting w =
    (CoroStopping, set_queue (mkQueue (maxsize (w_queue w)) post) w).
Proof.
  intros Hit Hno. rewrite resume_waiting. unfold Actor.while_loop.
  rewrite Hit, (wait_for_stop_first_stop pre post _ STOP_is_not_START Hno).
  reflexivity.
Qed.

Lemma run_in_loop_waiting_no_stop (E : Env) (conf : Conf) (w : World) :
  WORKER_CONTROL_SIGNAL_STOP ∉ items (w_queue w) ->
  Actor._run_in_loop E conf CoroWaiting w =
    (CoroWaiting, set_queue (mkQueue (maxsize (w_queue w)) []) w).
Proof.
  intros Hno. rewrite resume_waiting. unfold Actor.while_loop.
  rewrite (wait_for_stop_no_stop _ _ STOP_is_not_START Hno). reflexivity.
Qed.

(** From the suspended loop, a queued ["STOP"] takes the coroutine through
    the teardown to its end: one [close]. *)
Lemma drive_waiting_stop (E : Env) (conf : Conf) (w : World)
  (pre post : list PyStr) :
  items (w_queue w) = pre ++ WORKER_CONTROL_SIGNAL_STOP :: post ->
  WORKER_CONTROL_SIGNAL_STOP ∉ pre ->
  Actor.drive E conf CoroWaiting w =
    (CoroDone (Ok tt),
     set_driver (mkDriver (urls (w_driver w)) None)
       (record_call CallClose (set_queue (mkQueue (maxsize (w_queue w)) post) w))).
Proof.
  intros Hit Hno. unfold Actor.drive.
  rewrite (run_in_loop_waiting_stop E conf w pre post Hit Hno).
  cbn [Actor._run_in_loop]. rewrite close_spec. reflexivity.
Qed.

Lemma drive_waiting_no_stop (E : Env) (conf : Conf) (w : World) :
  WORKER_CONTROL_SIGNAL_STOP ∉ items (w_queue w) ->
  Actor.drive E conf CoroWaiting w =
    (CoroWaiting, set_queue (mkQueue (maxsize (w_queue w)) []) w).
Proof.
  intros Hno. unfold Actor.drive.
  rewrite (run_in_loop_waiting_no_stop E conf w Hno).
  rewrite !run_in_loop_waiting_no_stop by (simpl; apply not_elem_of_nil).
  reflexivity.
Qed.

Lemma drive_done (E : Env) (conf : Conf) (r : Res unit) (w : World) :
  Actor.drive E conf (CoroDone r) w = (CoroDone r, w).
Proof. reflexivity. Qed.

Lemma send_stop_enqueues (conf : Conf) (src : StopSource) (w : World) :
  maxsize (w_queue w) <= 0 ->
  Actor.has_control_subscription conf w = true ->
  let w1 := send_stop conf src w in
  items (w_queue w1) = items (w_queue w) ++ [WORKER_CONTROL_SIGNAL_STOP] /\
  maxsize (w_queue w1) = maxsize (w_queue w) /\
  w_calls w1 = w_calls w /\
  w_driver w1 = w_driver w.
Proof.
  intros Hmax Hsub. destruct src; simpl.
  - rewrite (stop_unbounded w Hmax). simpl. auto.
  - unfold Actor.deliver_control. rewrite Hsub.
    rewrite (handle_signal_result STOP_payload WORKER_CONTROL_SIGNAL_STOP w Hmax eq_refl).
    simpl. auto.
Qed.

Lemma send_stop_closed (conf : Conf) (src : StopSource) (w : World) :
  maxsize (w_queue w) <= 0 ->
  live (w_driver w) = None ->
  let w1 := send_stop conf src w in
  w_calls w1 = w_calls w /\ w_driver w1 = w_driver w.
Proof.
  intros Hmax Hnone. destruct src; simpl.
  - rewrite (stop_unbounded w Hmax). simpl. auto.
  - unfold Actor.deliver_control, Actor.has_control_subscription.
    rewrite Hnone. auto.
Qed.

(** C3: on an actor at rest in RUNNING, a ["STOP"] from either source
    takes the coroutine to its normal end with exactly one more [close]
    and no live connection; a second ["STOP"], sent before the loop resumes
    or after the actor has stopped, adds no [close] and raises nothing; and
    [close] on the driver that is already closed returns without error and
    leaves the driver as it is. *)
Theorem C3_stop_reaches_stopped_once (E : Env) (conf : Conf) (w : World)
  (src1 src2 : StopSource) :
  Running conf w ->
  let w1 := send_stop conf src1 w in
  let r2 := Actor.drive E conf CoroWaiting w1 in
  let r4 := Actor.drive E conf r2.1 (send_stop conf src2 r2.2) in
  let r5 := Actor.drive E conf CoroWaiting (send_stop conf src2 w1) in
  (actor_state r2.1 = STOPPED /\
   close_calls (w_calls r2.2) = S (close_calls (w_calls w)) /\
   live (w_driver r2.2) = None) /\
  (actor_state r4.1 = STOPPED /\
   close_calls (w_calls r4.2) = S (close_calls (w_calls w)) /\
   (Actor.stop r2.2).1 = Ok tt) /\
  (actor_state r5.1 = STOPPED /\
   close_calls (w_calls r5.2) = S (close_calls (w_calls w))) /\
  NatsDriver.close r2.2 = (Ok tt, record_call CallClose r2.2).
Proof.
  intros (Hmax & Hempty & Hsub) w1 r2 r4 r5.
  destruct (send_stop_enqueues conf src1 w Hmax Hsub)
    as (Hit1 & Hmax1 & Hcalls1 & Hdrv1).
  fold w1 in Hit1, Hmax1, Hcalls1, Hdrv1. rewrite Hempty in Hit1. simpl in Hit1.
  assert (Hr2 : r2 = (CoroDone (Ok tt),
                      set_driver (mkDriver (urls (w_driver w1)) None)
                        (record_call CallClose
                           (set_queue (mkQueue (maxsize (w_queue w1)) []) w1)))).
  { subst r2. apply (drive_waiting_stop E conf w1 [] []); [exact Hit1|].
    apply not_elem_of_nil. }
  assert (Hsub1 : Actor.has_control_subscription conf w1 = true).
  { unfold Actor.has_control_subscription in *. rewrite Hdrv1. exact Hsub. }
  destruct (send_stop_enqueues conf src2 w1 ltac:(lia) Hsub1)
    as (Hit5 & Hmax5 & Hcalls5 & Hdrv5).
  rewrite Hit1 in Hit5. simpl in Hit5.
  assert (Hr5 : r5 = (CoroDone (Ok tt),
                      set_driver (mkDriver (urls (w_driver (send_stop conf src2 w1))) None)
                        (record_call CallClose
                           (set_queue (mkQueue (maxsize (w_queue (send_stop conf src2 w1)))
                                         [WORKER_CONTROL_SIGNAL_STOP])
                              (send_stop conf src2 w1))))).
  { subst r5. apply (drive_waiting_stop E conf _ []); [exact Hit5|].
    apply not_elem_of_nil. }
  clearbody r2 r5. subst r2 r5. subst r4. cbn [fst snd].
  rewrite drive_done. cbn [fst snd].
  set (w2 := set_driver _ (record_call CallClose (set_queue _ w1))).
  assert (Hmax2 : maxsize (w_queue w2) <= 0) by (subst w2; simpl; lia).
  assert (Hnone2 : live (w_driver w2) = None) by reflexivity.
  assert (Hcalls2 : close_calls (w_calls w2) = S (close_calls (w_calls w))).
  { subst w2. simpl. rewrite close_calls_app, Hcalls1. simpl. lia. }
  destruct (send_stop_closed conf src2 w2 Hmax2 Hnone2) as (Hcalls4 & _).
  split; [|split; [|split]].
  - split; [reflexivity|]. split; assumption.
  - split; [reflexivity|]. split; [rewrite Hcalls4; exact Hcalls2|].
    rewrite (stop_unbounded _ Hmax2). reflexivity.
  - split; [reflexivity|].
    simpl. rewrite close_calls_app, Hcalls5, Hcalls1. simpl. lia.
  - apply close_idempotent. exact Hnone2.
Qed.

(** A fresh actor with nothing queued comes to rest in RUNNING. *)
Lemma drive_new_running (E : Env) (conf : Conf) (w : World) (fns : list TaskFn) :
  broker_up E = true ->
  live (w_driver w) = None ->
  Forall2 (fun ts f => get_module E (ts_task ts) = Some f) (TASKS conf) fns ->
  maxsize (w_queue w) <= 0 ->
  WORKER_CONTROL_SIGNAL_STOP ∉ items (w_queue w) ->
  exists w', Actor.drive E conf CoroNew w = (CoroWaiting, w') /\ Running conf w'.
Proof.
  intros Hup Hnone Hfns Hmax Hno.
  destruct (startup_ok E conf w fns Hup Hnone Hfns)
    as (w1 & c & Hrun & _ & Hlive & Hsubs & Hq).
  unfold Actor.drive. cbn [Actor._run_in_loop]. rewrite Hrun.
  unfold Actor.while_loop. rewrite Hq.
  rewrite (wait_for_stop_no_stop _ _ STOP_is_not_START Hno).
  rewrite !run_in_loop_waiting_no_stop by (simpl; apply not_elem_of_nil).
  eexists. split; [reflexivity|].
  split; [simpl; exact Hmax|]. split; [reflexivity|].
  unfold Actor.has_control_subscription. simpl. rewrite Hlive.
  destruct (subs c) as [|s0 rest]; [discriminate Hsubs|].
  cbn [map] in Hsubs. unfold sub_key at 1 in Hsubs.
  injection Hsubs as Hs _ Hcb _. simpl. rewrite Hs, Hcb.
  rewrite bool_decide_eq_true_2 by reflexivity. reflexivity.
Qed.

Lemma C3_stop_reaches_stopped_once_witness :
  close_calls
    (w_calls (Actor.drive example_env example_conf CoroWaiting
                (send_stop example_conf ViaBus example_running)).2) = 1%nat.
Proof.
  refine (proj1 (proj2 (proj1
    (C3_stop_reaches_stopped_once example_env example_conf example_running
       ViaBus ViaStop _)))).
  split; [simpl; lia|]. split; reflexivity.
Defined.

(** ** Request and reply *)

Lemma get_connection_ok (E : Env) (loop : Loop) (w : World) :
  broker_up E = true ->
  NatsDriver.get_connection E loop w = (Ok tt, connected w) /\
  is_Some (live (w_driver (connected w))).
Proof.
  intros Hup. unfold NatsDriver.get_connection, connected.
  destruct (live (w_driver w)) eqn:Hlive.
  - rewrite Hlive. eauto.
  - rewrite Hup. simpl. eauto.
Qed.

(** [Actor.request], step by step: a reply is returned after [close], a
    timeout leaves through the context manager without [close]. *)
Lemma request_unfold (E : Env) (name : PyStr) (payload : PyBytes)
  (loop : option Loop) (w : World) :
  broker_up E = true ->
  Actor.request E name payload loop w =
    match reply_within E name payload (default_timeout E) with
    | Ok reply =>
      (Ok reply,
       set_driver (mkDriver (urls (w_driver w)) None)
         (record_call CallClose
            (record_call (CallRequest name payload) (connected w))))
    | Raise e => (Raise e, record_call (CallRequest name payload) (connected w))
    end.
Proof.
  intros Hup.
  unfold Actor.request, Actor.nats_driver, mbind, M_bind.
  destruct (get_connection_ok E (match loop with Some l => l | None => O end) w Hup)
    as [Hconn [c Hc]].
  rewrite Hconn.
  unfold Nats.request, Nats.request_with_timeout, reply_within. rewrite Hc.
  destruct (responder E name payload) as [[latency reply]|]; [|reflexivity].
  destruct (latency <=? default_timeout E); [|reflexivity].
  cbn [mret M_ret]. rewrite close_spec. cbn [fst snd].
  do 3 f_equal. unfold connected.
  destruct (live (w_driver w)); reflexivity.
Qed.

(** C6 (amended): [Actor.request(name, payload, loop)] has no timeout
    parameter.  With a reachable broker it returns exactly the bytes of the
    reply when the responder answers within the default timeout of the
    connection's [request], and raises [TimeoutError] when the responder
    answers later or not at all. *)
Theorem C6_request_reply_or_timeout (E : Env) (name : PyStr) (payload : PyBytes)
  (loop : option Loop) (w : World) :
  broker_up E = true ->
  let res := (Actor.request E name payload loop w).1 in
  match responder E name payload with
  | Some (latency, reply) =>
    if latency <=? default_timeout E then res = Ok reply
    else res = Raise TimeoutError
  | None => res = Raise TimeoutError
  end.
Proof.
  intros Hup res. subst res. rewrite (request_unfold E name payload loop w Hup).
  unfold reply_within.
  destruct (responder E name payload) as [[latency reply]|]; [|reflexivity].
  destruct (latency <=? default_timeout E); reflexivity.
Qed.

Lemma C6_request_reply_or_timeout_witness :
  (Actor.request example_env (pystr "foo.get") [x7b; x7d] None
     (Actor.__init__ example_conf ∅)).1 = Ok [x6f; x6b].
Proof.
  apply (C6_request_reply_or_timeout example_env (pystr "foo.get") [x7b; x7d] None
           (Actor.__init__ example_conf ∅)).
  reflexivity.
Defined.

(** C6 as stated fails whatever the default timeout [D] of the connection
    is: a caller who allows [D + 1] and a responder who answers after
    [D + 1] get [TimeoutError], not the reply. *)
Lemma C6_no_timeout_parameter :
  ~ exists D : Z,
      forall (answer : PyStr -> PyBytes -> option (Z * PyBytes)) (timeout : Z),
        let E := mkEnv true (get_module example_env) answer D
                   (perf_counter example_env) in
        (Actor.request E (pystr "foo.get") [x7b; x7d] None
           (Actor.__init__ example_conf ∅)).1 =
          reply_within E (pystr "foo.get") [x7b; x7d] timeout.
Proof.
  intros [D H].
  specialize (H (fun _ _ => Some (D + 1, [x6f; x6b])) (D + 1)).
  cbv zeta in H. rewrite request_unfold in H by reflexivity.
  unfold reply_within in H. cbn [responder default_timeout] in H.
  destruct (D + 1 <=? D) eqn:Hle; [lia|].
  rewrite Z.leb_refl in H. discriminate H.
Qed.

(** C7 (amended): with a reachable broker and a reply in time,
    [Actor.request] makes exactly one request on the bus and returns its
    reply; it makes no subscribe call and leaves the control queue alone.
    It ends by closing the driver: no connection is live afterwards.  When
    none was live before (before the run loop, or after it), the driver is
    as it was; when one was, the call reused it without connecting. *)
Theorem C7_request_one_request_then_close (E : Env) (name : PyStr)
  (payload : PyBytes) (loop : option Loop) (w : World) (latency : Z)
  (reply : PyBytes) :
  broker_up E = true ->
  responder E name payload = Some (latency, reply) ->
  latency <= default_timeout E ->
  let r := Actor.request E name payload loop w in
  r.1 = Ok reply /\
  request_calls (w_calls r.2) = request_calls (w_calls w) ++ [(name, payload)] /\
  subscribe_calls (w_calls r.2) = subscribe_calls (w_calls w) /\
  w_queue r.2 = w_queue w /\
  live (w_driver r.2) = None /\
  (live (w_driver w) = None ->
     w_driver r.2  = w_driver w /\
     w_calls r.2 = w_calls w ++ [CallConnect; CallRequest name payload; CallClose]) /\
  (is_Some (live (w_driver w)) ->
     w_calls r.2 = w_calls w ++ [CallRequest name payload; CallClose]).
Proof.
  intros Hup Hresp Hlat r. subst r.
  rewrite (request_unfold E name payload loop w Hup).
  unfold reply_within. rewrite Hresp.
  destruct (latency <=? default_timeout E) eqn:Hle; [|lia].
  cbn [fst snd]. split; [reflexivity|].
  assert (Hconn : exists pre, w_calls (connected w) = w_calls w ++ pre /\
                    request_calls pre = [] /\ subscribe_calls pre = [] /\
                    w_queue (connected w) = w_queue w /\
                    (live (w_driver w) = None -> pre = [CallConnect]) /\
                    (is_Some (live (w_driver w)) -> pre = [])).
  { unfold connected. destruct (live (w_driver w)) eqn:Hlive.
    - exists []. rewrite app_nil_r. repeat split; auto. discriminate.
    - exists [CallConnect]. repeat split; auto. intros [c Hc]. discriminate Hc. }
  destruct Hconn as (pre & Hcalls & Hreq & Hsub & Hq & Hnone & Hsome).
  simpl. rewrite Hcalls, Hq.
  rewrite !request_calls_app, !subscribe_calls_app, Hreq, Hsub. simpl.
  rewrite !app_nil_r.
  repeat split; auto.
  - destruct (w_driver w) as [u l]. simpl in *. subst l. reflexivity.
  - rewrite Hnone by assumption. rewrite <- !app_assoc. reflexivity.
  - intros Hs. rewrite (Hsome Hs), app_nil_r, <- app_assoc. reflexivity.
Qed.

Lemma C7_request_one_request_then_close_witness :
  w_driver (Actor.request example_env (pystr "foo.get") [x7b; x7d] None
              (Actor.__init__ example_conf ∅)).2 =
    w_driver (Actor.__init__ example_conf ∅).
Proof.
  refine (proj1 (proj1 (proj2 (proj2 (proj2 (proj2 (proj2
    (C7_request_one_request_then_close example_env (pystr "foo.get") [x7b; x7d]
       None (Actor.__init__ example_conf ∅) 10 [x6f; x6b] _ _ _)))))) _)).
  - reflexivity.
  - reflexivity.
  - simpl. lia.
  - reflexivity.
Defined.

(** C7 as stated fails while the run loop holds the connection: the
    request reuses it and then closes it, the control and task
    subscriptions are gone, and a ["STOP"] sent over the bus no longer
    reaches the queue. *)
Lemma C7_request_during_run_drops_subscriptions :
  let w := example_running in
  let w' := (Actor.request example_env (pystr "foo.get") [x7b; x7d] None w).2 in
  (exists c, live (w_driver w) = Some c /\ length (subs c) = 2%nat) /\
  Actor.has_control_subscription example_conf w = true /\
  live (w_driver w') = None /\
  Actor.has_control_subscription example_conf w' = false /\
  items (w_queue (send_stop example_conf ViaBus w')) = [].
Proof.
  cbv zeta. split; [|repeat split].
  eexists. split; reflexivity.
Qed.

(** ** [send_task] *)

(** [Actor.request] reads and writes nothing but the driver and the bus:
    neither the clock, nor the log, nor the event loop it is given. *)
Lemma request_frame (E : Env) (name : PyStr) (payload : PyBytes)
  (loop1 loop2 : option Loop) (w1 w2 : World) :
  same_bus w1 w2 ->
  (Actor.request E name payload loop1 w1).1 = (Actor.request E name payload loop2 w2).1 /\
  same_bus (Actor.request E name payload loop1 w1).2
           (Actor.request E name payload loop2 w2).2.
Proof.
  intros (Hq & Hd & Hc).
  destruct w1 as [q1 d1 c1 s1 l1 t1 lc1 n1], w2 as [q2 d2 c2 s2 l2 t2 lc2 n2].
  simpl in Hq, Hd, Hc. subst q2 d2 c2.
  unfold Actor.request, Actor.nats_driver, mbind, M_bind,
    NatsDriver.get_connection, Nats.request, Nats.request_with_timeout,
    NatsDriver.close, same_bus.
  destruct d1 as [u [c|]]; simpl.
  - destruct (responder E name payload) as [[lat reply]|]; simpl; auto.
    destruct (lat <=? default_timeout E); simpl; auto.
  - destruct (broker_up E); simpl; auto.
    destruct (responder E name payload) as [[lat reply]|]; simpl; auto.
    destruct (lat <=? default_timeout E); simpl; auto.
Qed.

(** C8: [send_task] returns, or raises, exactly what [request] does for
    the same name and payload on the event loop created for the call, and
    has the same effect on the queue, the driver and the bus; reading the
    clock and logging the elapsed time change neither. *)
Theorem C8_send_task_returns_request_response (E : Env) (name : PyStr)
  (payload : PyBytes) (w : World) :
  let s := Actor.send_task E name payload w in
  let r := Actor.request E name payload (Some (w_loops w)) w in
  s.1 = r.1 /\ same_bus s.2 r.2.
Proof.
  intros s r. subst s r.
  unfold Actor.send_task, Actor.simple_eventloop, Actor.time_perf_counter,
    mbind, M_bind.
  cbv beta iota.
  match goal with
  | |- context [Actor.request E name payload ?l ?w0] =>
    destruct (request_frame E name payload l (Some (w_loops w)) w0 w)
      as [Hres Hbus]; [repeat split|];
    destruct (Actor.request E name payload l w0) as [[response|e] w1]
  end; cbn [fst snd] in *.
  - split; [exact Hres | exact Hbus].
  - split; [exact Hres | exact Hbus].
Qed.

(** A fresh loop is handed out for every call. *)
Lemma send_task_fresh_loop (E : Env) (name : PyStr) (payload : PyBytes) (w : World) :
  w_loops (Actor.send_task E name payload w).2 = S (w_loops w).
Proof.
  unfold Actor.send_task, Actor.simple_eventloop, Actor.time_perf_counter,
    Actor.request, Actor.nats_driver, mbind, M_bind,
    NatsDriver.get_connection, Nats.request, Nats.request_with_timeout,
    NatsDriver.close.
  destruct w as [q [u [c|]] cs s l t lc n]; simpl.
  - destruct (responder E name payload) as [[lat reply]|]; simpl; auto.
    destruct (lat <=? default_timeout E); simpl; auto.
  - destruct (broker_up E); simpl; auto.
    destruct (responder E name payload) as [[lat reply]|]; simpl; auto.
    destruct (lat <=? default_timeout E); simpl; auto.
Qed.

(** ** [run] *)

Lemma bus_only_bind {A B} (m : M A) (f : A -> M B) :
  bus_only m -> (forall a, bus_only (f a)) -> bus_only (m ≫= f).
Proof.
  intros Hm Hf w. unfold mbind, M_bind.
  destruct (Hm w) as [Hq Hr]. destruct (m w) as [[a|e] w1]; simpl in *.
  - destruct (Hf a w1) as [Hq1 Hr1]. rewrite <- Hq. split; assumption.
  - split; [assumption | congruence].
Qed.

Lemma bus_only_get_connection (E : Env) (loop : Loop) :
  bus_only (NatsDriver.get_connection E loop).
Proof.
  intros w. unfold NatsDriver.get_connection.
  destruct (live (w_driver w)); [|destruct (broker_up E)]; simpl; auto.
Qed.

Lemma bus_only_subscribe (s : PyStr) (q : option PyStr) (f : Callback) :
  bus_only (Nats.subscribe s q f).
Proof.
  intros w. unfold Nats.subscribe. destruct (live (w_driver w)); simpl; auto.
Qed.

Lemma bus_only_register_tasks (E : Env) (tasks : list TaskSpec) :
  bus_only (Actor.register_tasks E tasks).
Proof.
  induction tasks as [|ts tasks IH]; cbn [Actor.register_tasks].
  - intros w. simpl. auto.
  - apply bus_only_bind; [|intros _; exact IH].
    unfold Actor.register_task. apply bus_only_bind.
    + intros w. destruct (get_module E (ts_task ts)); simpl; auto.
    + intros f. apply bus_only_bind; [apply bus_only_subscribe|].
      intros n w. simpl. auto.
Qed.

Lemma bus_only_startup (E : Env) (conf : Conf) : bus_only (Actor.startup E conf).
Proof.
  unfold Actor.startup.
  apply bus_only_bind; [apply bus_only_get_connection|]. intros _.
  apply bus_only_bind; [apply bus_only_subscribe|]. intros _.
  apply bus_only_register_tasks.
Qed.

(** The first run of a new coroutine is its startup followed by what the
    suspended loop does. *)
Lemma drive_new (E : Env) (conf : Conf) (w : World) :
  Actor.drive E conf CoroNew w =
    match Actor.startup E conf w with
    | (Ok _, w1) => Actor.drive E conf CoroWaiting w1
    | (Raise e, w1) => (CoroDone (Raise e), w1)
    end.
Proof.
  unfold Actor.drive at 1. cbn [Actor._run_in_loop].
  destruct (Actor.startup E conf w) as [[[]|e] w1]; [|reflexivity].
  rewrite <- (resume_waiting E conf). reflexivity.
Qed.

Lemma drive_waiting_result (E : Env) (conf : Conf) (w : World) (c' : Coro)
  (w' : World) :
  Actor.drive E conf CoroWaiting w = (c', w') ->
  maxsize (w_queue w') = maxsize (w_queue w) /\
  ((c' = CoroWaiting /\ items (w_queue w') = []) \/ c' = CoroDone (Ok tt)).
Proof.
  intros H.
  destruct (split_first_stop (items (w_queue w))) as [Hno | (pre & post & Hit & Hno)].
  - rewrite (drive_waiting_no_stop E conf w Hno) in H.
    injection H as <- <-. simpl. auto.
  - rewrite (drive_waiting_stop E conf w pre post Hit Hno) in H.
    injection H as <- <-. simpl. auto.
Qed.

(** Where the event loop leaves the coroutine: suspended on the empty
    queue, or done; and it is never done with [KeyboardInterrupt]. *)
Lemma drive_result (E : Env) (conf : Conf) (c : Coro) (w : World) (c' : Coro)
  (w' : World) :
  Actor.drive E conf c w = (c', w') ->
  c <> CoroDone (Raise KeyboardInterrupt) ->
  maxsize (w_queue w') = maxsize (w_queue w) /\
  c' <> CoroDone (Raise KeyboardInterrupt) /\
  ((c' = CoroWaiting /\ items (w_queue w') = []) \/ exists r, c' = CoroDone r).
Proof.
  intros H Hc. destruct c as [| | |r].
  - rewrite drive_new in H.
    destruct (bus_only_startup E conf w) as [Hq Hr].
    destruct (Actor.startup E conf w) as [[[]|e] w1]; simpl in Hq, Hr.
    + destruct (drive_waiting_result E conf w1 c' w' H) as [Hm [[-> Hit] | ->]];
        rewrite <- Hq; (split; [exact Hm|]); (split; [discriminate|]); eauto.
    + injection H as <- <-. rewrite Hq. split; [reflexivity|].
      split; [congruence | eauto].
  - destruct (drive_waiting_result E conf w c' w' H) as [Hm [[-> Hit] | ->]];
      (split; [exact Hm|]); (split; [discriminate|]); eauto.
  - unfold Actor.drive in H. cbn [Actor._run_in_loop] in H.
    rewrite close_spec in H. cbn [Actor._run_in_loop] in H.
    injection H as <- <-. simpl. split; [reflexivity|].
    split; [discriminate | eauto].
  - rewrite drive_done in H. injection H as <- <-. eauto.
Qed.

Lemma deliver_control_maxsize (conf : Conf) (data : PyBytes) (w : World) :
  maxsize (w_queue (Actor.deliver_control conf data w)) = maxsize (w_queue w).
Proof.
  unfold Actor.deliver_control.
  destruct (Actor.has_control_subscription conf w); [|reflexivity].
  unfold Actor._handle_signal, mbind, M_bind, bytes_decode.
  destruct (utf8_decode data); [|reflexivity]. simpl.
  unfold put_nowait, Queue_.put_nowait. simpl.
  destruct (Queue_.full (w_queue w)); reflexivity.
Qed.

Lemma run_until_complete_done (E : Env) (conf : Conf) (evs : list Event)
  (c : Coro) (w : World) (r : Res unit) (w1 : World) :
  Actor.drive E conf c w = (CoroDone r, w1) ->
  Actor.run_until_complete E conf evs c w = (Finished r, CoroDone r, w1, evs).
Proof.
  intros H. destruct evs; cbn [Actor.run_until_complete]; rewrite H; reflexivity.
Qed.

(** How [run_until_complete] can end: normally only with the coroutine
    done; with [KeyboardInterrupt] only while the coroutine is suspended on
    its empty queue. *)
Lemma run_until_complete_result (E : Env) (conf : Conf) (evs : list Event) :
  forall (c : Coro) (w : World) (o : Outcome) (c' : Coro) (w' : World)
         (evs' : list Event),
    Actor.run_until_complete E conf evs c w = (o, c', w', evs') ->
    maxsize (w_queue w) <= 0 ->
    c <> CoroDone (Raise KeyboardInterrupt) ->
    maxsize (w_queue w') <= 0 /\
    (o = Finished (Ok tt) -> c' = CoroDone (Ok tt)) /\
    (o = Finished (Raise KeyboardInterrupt) ->
       c' = CoroWaiting /\ items (w_queue w') = []).
Proof.
  induction evs as [|ev evs IH]; intros c w o c' w' evs' H Hmax Hc;
    cbn [Actor.run_until_complete] in H;
    destruct (Actor.drive E conf c w) as [c1 w1] eqn:Hd;
    destruct (drive_result E conf c w c1 w1 Hd Hc) as (Hm & Hc1 & [[-> Hit] | [r ->]]).
  - injection H as <- <- <- <-. split; [lia|]. split; discriminate.
  - injection H as <- <- <- <-. split; [lia|].
    split; intros Ho; injection Ho as ->; [reflexivity | contradiction].
  - destruct ev as [data|n].
    + apply (IH _ _ _ _ _ _ H); [|discriminate].
      rewrite deliver_control_maxsize. lia.
    + destruct (Actor.deliver_signal n w1) as [[r w2]|] eqn:Hsig.
      * rewrite (deliver_signal_world n w1 w2 r Hsig) in H.
        destruct r as [[]|e].
        { apply (IH _ _ _ _ _ _ H); [lia | discriminate]. }
        destruct (contained_by_loop conf e).
        { apply (IH _ _ _ _ _ _ H); [lia | discriminate]. }
        injection H as <- <- <- <-. split; [lia|].
        split; [discriminate | auto].
      * injection H as <- <- <- <-. split; [lia|]. split; discriminate.
  - injection H as <- <- <- <-. split; [lia|].
    split; intros Ho; injection Ho as ->; [reflexivity | contradiction].
Qed.

Lemma await_pending_benign (E : Env) (conf : Conf) (tasks : list Task) :
  Forall benign tasks ->
  forall (n : nat) (evs : list Event) (c : Coro) (w : World),
    at_finally c w ->
    exists c' w' evs',
      Actor.await_pending E conf n tasks evs c w = (Finished (Ok tt), c', w', evs') /\
      (c = CoroDone (Ok tt) ->
         c' = c /\ w_queue w' = w_queue w /\ w_driver w' = w_driver w) /\
      (c = CoroWaiting ->
         (c' = CoroWaiting /\ w_queue w' = w_queue w) \/
         (c' = CoroDone (Ok tt) /\ items (w_queue w') = [] /\
          live (w_driver w') = None)).
Proof.
  induction 1 as [|t tasks Ht _ IH]; intros n evs c w [Hmax Hc].
  - exists c, w, evs. cbn [Actor.await_pending]. split; [reflexivity|]. auto.
  - cbn [Actor.await_pending]. destruct t as [|r].
    + (* the task of _run_in_loop *)
      destruct Hc as [-> | [-> Hit]].
      * rewrite (run_until_complete_done E conf evs _ _ (Ok tt) _ (drive_done _ _ _ _)).
        cbv beta iota zeta.
        match goal with
        | |- context [Actor.await_pending E conf (S n) tasks evs ?c1 ?w2] =>
          destruct (IH (S n) evs c1 w2) as (c' & w' & evs' & Hrun & Hdone & _);
            [split; [|left; reflexivity]; simpl; exact Hmax|]
        end.
        exists c', w', evs'. rewrite Hrun. split; [reflexivity|].
        split; [|discriminate]. intros _.
        destruct (Hdone eq_refl) as (-> & Hq & Hd). auto.
      * erewrite (run_until_complete_done E conf evs CoroWaiting);
          [|apply (drive_waiting_stop E conf _ [] []);
            [simpl; exact Hit | apply not_elem_of_nil]].
        cbv beta iota zeta.
        match goal with
        | |- context [Actor.await_pending E conf (S n) tasks evs ?c1 ?w2] =>
          destruct (IH (S n) evs c1 w2) as (c' & w' & evs' & Hrun & Hdone & _);
            [split; [|left; reflexivity]; simpl; exact Hmax|]
        end.
        exists c', w', evs'. rewrite Hrun. split; [reflexivity|].
        split; [discriminate|]. intros _. right.
        destruct (Hdone eq_refl) as (-> & Hq & Hd).
        rewrite Hq, Hd. auto.
    + (* another task *)
      destruct Ht as [-> | ->]; cbv beta iota zeta;
        match goal with
        | |- context [Actor.await_pending E conf (S n) tasks evs ?c1 ?w2] =>
          destruct (IH (S n) evs c1 w2) as (c' & w' & evs' & Hrun & Hdone & Hwait);
            [split; [|exact Hc]; simpl; exact Hmax|]
        end;
        exists c', w', evs'; rewrite Hrun; (split; [reflexivity|]);
        (split; [exact Hdone | exact Hwait]).
Qed.

(** When [run] returns normally, the loop is closed. *)
Lemma run_returns_closed (E : Env) (conf : Conf) (pending : list Task)
  (evs : list Event) (w w' : World) :
  Actor.run E conf pending evs w = (Finished (Ok tt), w') ->
  w_loop_closed w' = true.
Proof.
  unfold Actor.run.
  destruct (Actor.run_until_complete E conf evs CoroNew (add_log LogStartRun w))
    as [[[o c] w1] evs1].
  destruct o as [r| |]; [|discriminate|discriminate].
  match goal with
  | |- context [let '(r1, w2) := ?x in _] => destruct x as [r1 w2]
  end.
  destruct (Actor.await_pending E conf 0 pending evs1 c (add_log LogStopCancelPending w2))
    as [[[o2 c2] w4] evs2].
  destruct o2 as [[[]|e2]| |]; try discriminate.
  destruct r1 as [[]|e1]; intros H;
    first [discriminate H | injection H as <-; reflexivity].
Qed.

(** * Further properties of the code *)

(** ** Startup failures *)

Lemma drive_startup_raise (E : Env) (conf : Conf) (w w1 : World) (e : Exn) :
  Actor.startup E conf w = (Raise e, w1) ->
  Actor.drive E conf CoroNew w = (CoroDone (Raise e), w1).
Proof. intros H. rewrite drive_new, H. reflexivity. Qed.

(** X1: when the broker does not accept the connection, the coroutine
    ends at once with [ConnectionError]: one connect attempt, no
    subscription, no [close], and the queue is not read. *)
Theorem X1_broker_down_fails_startup (E : Env) (conf : Conf) (w : World) :
  broker_up E = false ->
  live (w_driver w) = None ->
  Actor.drive E conf CoroNew w =
    (CoroDone (Raise ConnectionError), record_call CallConnect w).
Proof.
  intros Hdown Hnone. apply drive_startup_raise.
  unfold Actor.startup, mbind, M_bind, NatsDriver.get_connection.
  rewrite Hnone, Hdown. reflexivity.
Qed.

Lemma X1_broker_down_fails_startup_witness :
  actor_state
    (Actor.drive (mkEnv false (get_module example_env) (responder example_env)
                    500 (perf_counter example_env))
       example_conf CoroNew (Actor.__init__ example_conf ∅)).1 = FAILED.
Proof.
  rewrite (X1_broker_down_fails_startup _ example_conf (Actor.__init__ example_conf ∅));
    reflexivity.
Defined.

Lemma register_task_unresolved (E : Env) (task_spec : TaskSpec) (w : World) :
  get_module E (ts_task task_spec) = None ->
  Actor.register_task E task_spec w = (Raise ImportError, w).
Proof.
  intros H. unfold Actor.register_task, mbind, M_bind. rewrite H. reflexivity.
Qed.

(** The [for] loop stops at the first task path that does not resolve. *)
Lemma register_tasks_fail (E : Env) (pre : list TaskSpec) (fns : list TaskFn)
  (bad : TaskSpec) (post : list TaskSpec) :
  Forall2 (fun ts f => get_module E (ts_task ts) = Some f) pre fns ->
  get_module E (ts_task bad) = None ->
  forall (w : World) (c : Connection),
    live (w_driver w) = Some c ->
    exists w' c',
      Actor.register_tasks E (pre ++ bad :: post) w = (Raise ImportError, w') /\
      w_calls w' = w_calls w ++ map subscribe_call (zip_with task_subscription pre fns) /\
      live (w_driver w') = Some c' /\
      map sub_key (subs c') = map sub_key (subs c) ++ zip_with task_subscription pre fns /\
      w_queue w' = w_queue w.
Proof.
  intros Hpre Hbad. induction Hpre as [|ts f pre fns Hf _ IH]; intros w c Hlive.
  - exists w, c. cbn [app Actor.register_tasks]. unfold mbind, M_bind.
    rewrite (register_task_unresolved E bad w Hbad). simpl.
    rewrite !app_nil_r. auto.
  - cbn [app Actor.register_tasks]. unfold mbind, M_bind, Actor.register_task.
    rewrite Hf. unfold mbind, M_bind.
    rewrite (subscribe_live _ _ _ w c Hlive).
    cbn [logging modify].
    match goal with
    | |- context [Actor.register_tasks E (pre ++ bad :: post) ?w1] =>
      destruct (IH w1 (mkConnection
                         (subs c ++ [mkSubscription (ssid c + 1) (ts_subject ts)
                                       (ts_queue ts) (NatsDriver.create_task f)])
                         (ssid c + 1)) eq_refl)
        as (w' & c' & Hrun & Hcalls & Hlive' & Hsubs & Hq)
    end.
    exists w', c'. rewrite Hrun. split; [reflexivity|].
    split; [|split; [exact Hlive'|split]].
    + rewrite Hcalls. simpl. rewrite <- app_assoc. reflexivity.
    + rewrite Hsubs. simpl. rewrite map_app, <- app_assoc. reflexivity.
    + rewrite Hq. reflexivity.
Qed.

(** X2: when a task path of the configuration does not resolve, the
    coroutine ends with the error after subscribing to the control subject
    and to the task specs before the failing one, in order; the
    subscriptions made so far stay on the live connection and [close] is
    not called. *)
Theorem X2_unresolved_task_leaves_connection_open (E : Env) (conf : Conf)
  (w : World) (pre : list TaskSpec) (fns : list TaskFn) (bad : TaskSpec)
  (post : list TaskSpec) :
  broker_up E = true ->
  live (w_driver w) = None ->
  TASKS conf = pre ++ bad :: post ->
  Forall2 (fun ts f => get_module E (ts_task ts) = Some f) pre fns ->
  get_module E (ts_task bad) = None ->
  let r := Actor.drive E conf CoroNew w in
  r.1 = CoroDone (Raise ImportError) /\
  subscribe_calls (w_calls r.2) =
    subscribe_calls (w_calls w) ++ created_subscriptions conf pre fns /\
  close_calls (w_calls r.2) = close_calls (w_calls w) /\
  (exists c, live (w_driver r.2) = Some c /\
             map sub_key (subs c) = created_subscriptions conf pre fns) /\
  w_queue r.2 = w_queue w.
Proof.
  intros Hup Hnone Htasks Hpre Hbad r.
  assert (Hstart : exists w1 c,
             Actor.startup E conf w = (Raise ImportError, w1) /\
             w_calls w1 = w_calls w ++ CallConnect
                            :: map subscribe_call (created_subscriptions conf pre fns) /\
             live (w_driver w1) = Some c /\
             map sub_key (subs c) = created_subscriptions conf pre fns /\
             w_queue w1 = w_queue w).
  { unfold Actor.startup, mbind, M_bind, NatsDriver.get_connection.
    rewrite Hnone, Hup, Htasks.
    erewrite (subscribe_live _ _ _ _ (mkConnection [] 0)) by reflexivity.
    match goal with
    | |- context [Actor.register_tasks E (pre ++ bad :: post) ?w1] =>
      destruct (register_tasks_fail E pre fns bad post Hpre Hbad w1 _ eq_refl)
        as (w2 & c2 & Hrun & Hcalls & Hlive & Hsubs & Hq)
    end.
    exists w2, c2. rewrite Hrun. split; [reflexivity|].
    split; [|split; [exact Hlive | split; [exact Hsubs | exact Hq]]].
    rewrite Hcalls. simpl. rewrite <- !app_assoc. reflexivity. }
  destruct Hstart as (w1 & c & Hrun & Hcalls & Hlive & Hsubs & Hq).
  subst r. rewrite (drive_startup_raise E conf w w1 _ Hrun). cbn [fst snd].
  split; [reflexivity|]. rewrite Hcalls.
  split; [|split; [|split; [eauto | exact Hq]]].
  - rewrite subscribe_calls_app. cbn [subscribe_calls].
    rewrite subscribe_calls_map. reflexivity.
  - rewrite close_calls_app. cbn [close_calls].
    assert (Hz : forall ks, close_calls (map subscribe_call ks) = O).
    { induction ks as [|k ks IHk]; [reflexivity | exact IHk]. }
    rewrite Hz. lia.
Qed.

Lemma X2_unresolved_task_leaves_connection_open_witness :
  (Actor.drive
     (mkEnv true (fun _ => None) (responder example_env) 500 (perf_counter example_env))
     example_conf CoroNew (Actor.__init__ example_conf ∅)).1 =
    CoroDone (Raise ImportError).
Proof.
  refine (proj1 (X2_unresolved_task_leaves_connection_open
                   (mkEnv true (fun _ => None) (responder example_env) 500
                      (perf_counter example_env))
                   example_conf (Actor.__init__ example_conf ∅)
                   [] [] (mkTaskSpec (pystr "foo.get") None (pystr "example.app.tasks.foo"))
                   [] _ _ _ _ _)).
  - reflexivity.
  - reflexivity.
  - reflexivity.
  - constructor.
  - reflexivity.
Defined.

(** ** The run loop from start to stop *)

(** X3: a ["STOP"] queued before the worker starts is not lost: the
    coroutine still makes all its subscriptions, then reads the queue up to
    that ["STOP"], closes the driver once and ends normally, without
    waiting for any event. *)
Theorem X3_stop_queued_before_start (E : Env) (conf : Conf) (w : World)
  (fns : list TaskFn) (pre post : list PyStr) :
  broker_up E = true ->
  live (w_driver w) = None ->
  Forall2 (fun ts f => get_module E (ts_task ts) = Some f) (TASKS conf) fns ->
  items (w_queue w) = pre ++ WORKER_CONTROL_SIGNAL_STOP :: post ->
  WORKER_CONTROL_SIGNAL_STOP ∉ pre ->
  let r := Actor.drive E conf CoroNew w in
  r.1 = CoroDone (Ok tt) /\
  subscribe_calls (w_calls r.2) =
    subscribe_calls (w_calls w) ++ created_subscriptions conf (TASKS conf) fns /\
  close_calls (w_calls r.2) = S (close_calls (w_calls w)) /\
  live (w_driver r.2) = None /\
  items (w_queue r.2) = post.
Proof.
  intros Hup Hnone Hfns Hit Hno r.
  destruct (startup_ok E conf w fns Hup Hnone Hfns)
    as (w1 & c & Hrun & Hcalls & Hlive & Hsubs & Hq).
  subst r. rewrite drive_new, Hrun.
  rewrite (drive_waiting_stop E conf w1 pre post) by (rewrite ?Hq; assumption).
  cbn [fst snd]. split; [reflexivity|]. simpl. rewrite Hcalls.
  split; [|split; [|split; reflexivity]].
  - rewrite !subscribe_calls_app. cbn [subscribe_calls].
    rewrite subscribe_calls_map. simpl. rewrite app_nil_r. reflexivity.
  - rewrite !close_calls_app. cbn [close_calls].
    assert (Hz : forall ks, close_calls (map subscribe_call ks) = O).
    { induction ks as [|k ks IHk]; [reflexivity | exact IHk]. }
    rewrite Hz. simpl. lia.
Qed.

Lemma X3_stop_queued_before_start_witness :
  actor_state
    (Actor.drive example_env example_conf CoroNew
       (Actor.stop (Actor.__init__ example_conf ∅)).2).1 = STOPPED.
Proof.
  rewrite (proj1 (X3_stop_queued_before_start example_env example_conf
                    (Actor.stop (Actor.__init__ example_conf ∅)).2
                    [mkTaskFn (pystr "foo")] [] []
                    eq_refl eq_refl
                    ltac:(repeat constructor)
                    eq_refl (not_elem_of_nil _))).
  reflexivity.
Defined.

Lemma running_serving (conf : Conf) (w : World) : Running conf w -> Serving conf w.
Proof.
  intros (Hmax & Hit & Hsub). split; [exact Hmax|]. split; [|exact Hsub].
  rewrite Hit. apply not_elem_of_nil.
Qed.

(** The event loop empties a queue without ["STOP"] and leaves the actor
    at rest. *)
Lemma drive_serving (E : Env) (conf : Conf) (w : World) :
  Serving conf w ->
  exists w',
    Actor.drive E conf CoroWaiting w = (CoroWaiting, w') /\
    Running conf w' /\
    w_calls w' = w_calls w /\ w_driver w' = w_driver w /\
    process_state w' = process_state w.
Proof.
  intros (Hmax & Hno & Hsub).
  rewrite (drive_waiting_no_stop E conf w Hno).
  eexists. split; [reflexivity|].
  split; [split; [simpl; exact Hmax | split; [reflexivity | exact Hsub]]|].
  auto.
Qed.

Lemma drive_running (E : Env) (conf : Conf) (w : World) :
  Running conf w -> Actor.drive E conf CoroWaiting w = (CoroWaiting, w).
Proof.
  intros (Hmax & Hit & Hsub).
  rewrite drive_waiting_no_stop by (rewrite Hit; apply not_elem_of_nil).
  rewrite <- Hit, set_queue_same. reflexivity.
Qed.

Lemma deliver_control_not_stop (conf : Conf) (data : PyBytes) (w : World) :
  Running conf w ->
  not_stop data ->
  Serving conf (Actor.deliver_control conf data w) /\
  w_calls (Actor.deliver_control conf data w) = w_calls w /\
  w_driver (Actor.deliver_control conf data w) = w_driver w /\
  process_state (Actor.deliver_control conf data w) = process_state w.
Proof.
  intros (Hmax & Hit & Hsub) Hdata.
  unfold Actor.deliver_control. rewrite Hsub.
  destruct (utf8_decode data) as [s|] eqn:Hdec.
  - rewrite (handle_signal_result data s w Hmax Hdec). cbn [snd].
    split; [|auto]. split; [simpl; exact Hmax|]. split; [|exact Hsub].
    simpl. rewrite Hit. simpl. rewrite list_elem_of_singleton.
    intros Heq. apply Hdata. rewrite Hdec, Heq. reflexivity.
  - unfold Actor._handle_signal, mbind, M_bind, bytes_decode. rewrite Hdec.
    cbn [snd]. split; [|auto]. apply running_serving.
    split; [exact Hmax | split; [exact Hit | exact Hsub]].
Qed.

Lemma run_until_complete_settled (E : Env) (conf : Conf) (evs : list Event)
  (c c1 : Coro) (w w1 : World) :
  Actor.drive E conf c w = (c1, w1) ->
  Actor.drive E conf c1 w1 = (c1, w1) ->
  Actor.run_until_complete E conf evs c w =
    Actor.run_until_complete E conf evs c1 w1.
Proof.
  intros H1 H2. destruct evs; cbn [Actor.run_until_complete];
    rewrite H1, H2; reflexivity.
Qed.

(** Control messages other than [b'STOP'] are consumed one by one and
    leave the actor at rest, with the bus untouched. *)
Lemma run_until_complete_messages (E : Env) (conf : Conf) (datas : list PyBytes) :
  Forall not_stop datas ->
  forall w : World,
    Serving conf w ->
    exists w',
      Running conf w' /\
      w_calls w' = w_calls w /\ w_driver w' = w_driver w /\
      process_state w' = process_state w /\
      forall rest,
        Actor.run_until_complete E conf (map EvControlMsg datas ++ rest) CoroWaiting w =
          Actor.run_until_complete E conf rest CoroWaiting w'.
Proof.
  induction 1 as [|data datas Hdata _ IH]; intros w Hserving;
    destruct (drive_serving E conf w Hserving) as (w1 & Hd & Hrun1 & Hc1 & Hdrv1 & Hp1).
  - exists w1. split; [exact Hrun1|]. split; [exact Hc1|]. split; [exact Hdrv1|].
    split; [exact Hp1|]. intros rest. cbn [map app].
    apply (run_until_complete_settled E conf rest _ _ _ _ Hd).
    apply drive_running. exact Hrun1.
  - destruct (deliver_control_not_stop conf data w1 Hrun1 Hdata)
      as (Hserving2 & Hc2 & Hdrv2 & Hp2).
    destruct (IH _ Hserving2) as (w' & Hrun' & Hc' & Hdrv' & Hp' & Hrest).
    exists w'. split; [exact Hrun'|].
    split; [congruence|]. split; [congruence|]. split; [congruence|].
    intros rest. cbn [map app Actor.run_until_complete]. rewrite Hd.
    apply Hrest.
Qed.

Lemma keeps_bind {A B C} (proj : World -> C) (m : M A) (f : A -> M B) :
  keeps proj m -> (forall a, keeps proj (f a)) -> keeps proj (m ≫= f).
Proof.
  intros Hm Hf w. unfold mbind, M_bind.
  specialize (Hm w). destruct (m w) as [[a|e] w1]; simpl in *.
  - rewrite <- Hm. apply Hf.
  - exact Hm.
Qed.

Lemma keeps_get_connection (E : Env) (loop : Loop) :
  keeps process_state (NatsDriver.get_connection E loop).
Proof.
  intros w. unfold NatsDriver.get_connection.
  destruct (live (w_driver w)); [|destruct (broker_up E)]; reflexivity.
Qed.

Lemma keeps_subscribe (s : PyStr) (q : option PyStr) (f : Callback) :
  keeps process_state (Nats.subscribe s q f).
Proof.
  intros w. unfold Nats.subscribe. destruct (live (w_driver w)); reflexivity.
Qed.

Lemma keeps_register_tasks (E : Env) (tasks : list TaskSpec) :
  keeps process_state (Actor.register_tasks E tasks).
Proof.
  induction tasks as [|ts tasks IH]; cbn [Actor.register_tasks].
  - intros w. reflexivity.
  - apply keeps_bind; [|intros _; exact IH].
    unfold Actor.register_task. apply keeps_bind.
    + intros w. destruct (get_module E (ts_task ts)); reflexivity.
    + intros f. apply keeps_bind; [apply keeps_subscribe|].
      intros n w. reflexivity.
Qed.

Lemma keeps_startup (E : Env) (conf : Conf) (w1 w : World) (r : Res unit) :
  Actor.startup E conf w = (r, w1) -> process_state w1 = process_state w.
Proof.
  intros H.
  assert (Hk : keeps process_state (Actor.startup E conf)).
  { unfold Actor.startup.
    apply keeps_bind; [apply keeps_get_connection|]. intros _.
    apply keeps_bind; [apply keeps_subscribe|]. intros _.
    apply keeps_register_tasks. }
  specialize (Hk w). rewrite H in Hk. exact Hk.
Qed.

(** A fresh actor with a valid configuration: the first run of the event
    loop brings it to rest in RUNNING with all its subscriptions made. *)
Lemma run_until_complete_new (E : Env) (conf : Conf) (w : World)
  (fns : list TaskFn) :
  broker_up E = true ->
  live (w_driver w) = None ->
  Forall2 (fun ts f => get_module E (ts_task ts) = Some f) (TASKS conf) fns ->
  maxsize (w_queue w) <= 0 ->
  WORKER_CONTROL_SIGNAL_STOP ∉ items (w_queue w) ->
  exists w1,
    Running conf w1 /\
    w_calls w1 = w_calls w ++ CallConnect
                   :: map subscribe_call (created_subscriptions conf (TASKS conf) fns) /\
    process_state w1 = process_state w /\
    forall evs,
      Actor.run_until_complete E conf evs CoroNew w =
        Actor.run_until_complete E conf evs CoroWaiting w1.
Proof.
  intros Hup Hnone Hfns Hmax Hno.
  destruct (startup_ok E conf w fns Hup Hnone Hfns)
    as (w1 & c & Hrun & Hcalls & Hlive & Hsubs & Hq).
  assert (Hserving : Serving conf w1).
  { split; [rewrite Hq; exact Hmax|]. split; [rewrite Hq; exact Hno|].
    unfold Actor.has_control_subscription. rewrite Hlive.
    destruct (subs c) as [|s0 rest]; [discriminate Hsubs|].
    cbn [map] in Hsubs. unfold sub_key at 1 in Hsubs.
    injection Hsubs as Hs _ Hcb _. simpl. rewrite Hs, Hcb.
    rewrite bool_decide_eq_true_2 by reflexivity. reflexivity. }
  destruct (drive_serving E conf w1 Hserving) as (w2 & Hd & Hrun2 & Hc2 & _ & Hp2).
  exists w2. split; [exact Hrun2|]. split; [rewrite Hc2, Hcalls; reflexivity|].
  split; [rewrite Hp2; apply (keeps_startup E conf w1 w _ Hrun)|].
  intros evs. apply run_until_complete_settled.
  - rewrite drive_new, Hrun. exact Hd.
  - apply drive_running. exact Hrun2.
Qed.

Lemma close_calls_subscribes (ks : list (PyStr * option PyStr * Callback)) :
  close_calls (map subscribe_call ks) = O.
Proof. induction ks as [|k ks IH]; [reflexivity | exact IH]. Qed.

Lemma process_state_loop_closed (w1 w2 : World) :
  process_state w1 = process_state w2 -> w_loop_closed w1 = w_loop_closed w2.
Proof. unfold process_state. intros H. injection H as _ _ H _. exact H. Qed.

Lemma process_state_sigtab (w1 w2 : World) :
  process_state w1 = process_state w2 -> w_sigtab w1 = w_sigtab w2.
Proof. unfold process_state. intros H. injection H as H _ _ _. exact H. Qed.

(** X4: as long as no ["STOP"] arrives, [run] does not return: after any
    run of control messages that do not decode to ["STOP"] (unknown
    values, ["START"], bytes that are not UTF-8) the worker is still
    suspended, its control subscription is in place, [close] was not called
    and the event loop is not closed. *)
Theorem X4_run_waits_without_stop (E : Env) (conf : Conf) (pending : list Task)
  (datas : list PyBytes) (w : World) (fns : list TaskFn) :
  broker_up E = true ->
  live (w_driver w) = None ->
  Forall2 (fun ts f => get_module E (ts_task ts) = Some f) (TASKS conf) fns ->
  maxsize (w_queue w) <= 0 ->
  WORKER_CONTROL_SIGNAL_STOP ∉ items (w_queue w) ->
  Forall not_stop datas ->
  exists w',
    Actor.run E conf pending (map EvControlMsg datas) w = (Hangs, w') /\
    close_calls (w_calls w') = close_calls (w_calls w) /\
    Actor.has_control_subscription conf w' = true /\
    w_loop_closed w' = w_loop_closed w.
Proof.
  intros Hup Hnone Hfns Hmax Hno Hdatas.
  destruct (run_until_complete_new E conf (add_log LogStartRun w) fns Hup Hnone Hfns Hmax Hno)
    as (w1 & Hrun1 & Hcalls1 & Hp1 & Hnew).
  destruct (run_until_complete_messages E conf datas Hdatas w1 (running_serving _ _ Hrun1))
    as (w2 & Hrun2 & Hcalls2 & _ & Hp2 & Hmsgs).
  exists w2. unfold Actor.run. rewrite Hnew.
  rewrite <- (app_nil_r (map EvControlMsg datas)), Hmsgs.
  cbn [Actor.run_until_complete]. rewrite (drive_running E conf w2 Hrun2).
  split; [reflexivity|].
  split; [|split; [apply Hrun2|]].
  - rewrite Hcalls2, Hcalls1. cbn [add_log w_calls].
    rewrite close_calls_app.
    change (close_calls (CallConnect :: ?l)) with (close_calls l).
    rewrite close_calls_subscribes. lia.
  - rewrite (process_state_loop_closed _ _ Hp2), (process_state_loop_closed _ _ Hp1).
    reflexivity.
Qed.

Lemma X4_run_waits_without_stop_witness :
  exists w',
    Actor.run example_env example_conf [MainTask]
      (map EvControlMsg [[x53; x54; x41; x52; x54]; [xff]; [x73; x74; x6f; x70]])
      (Actor.__init__ example_conf ∅) = (Hangs, w') /\
    close_calls (w_calls w') = O.
Proof.
  destruct (X4_run_waits_without_stop example_env example_conf [MainTask]
              [[x53; x54; x41; x52; x54]; [xff]; [x73; x74; x6f; x70]]
              (Actor.__init__ example_conf ∅) [mkTaskFn (pystr "foo")]
              eq_refl eq_refl ltac:(repeat constructor)
              ltac:(simpl; lia) (not_elem_of_nil _)
              ltac:(repeat constructor; discriminate))
    as (w' & Hrun & Hclose & _).
  exists w'. split; [exact Hrun | exact Hclose].
Defined.

Lemma same_but_log_add_log (m : LogMsg) (w : World) : same_but_log (add_log m w) w.
Proof. repeat split. Qed.

Lemma same_but_log_trans (w1 w2 w3 : World) :
  same_but_log w1 w2 -> same_but_log w2 w3 -> same_but_log w1 w3.
Proof.
  intros (H1 & H2 & H3 & H4 & H5 & H6 & H7) (K1 & K2 & K3 & K4 & K5 & K6 & K7).
  repeat split; congruence.
Qed.

(** With the coroutine done, the [finally] block only logs. *)
Lemma await_pending_done (E : Env) (conf : Conf) (tasks : list Task) :
  Forall benign tasks ->
  forall (n : nat) (evs : list Event) (w : World),
    exists w',
      Actor.await_pending E conf n tasks evs (CoroDone (Ok tt)) w =
        (Finished (Ok tt), CoroDone (Ok tt), w', evs) /\
      same_but_log w' w.
Proof.
  induction 1 as [|t tasks Ht _ IH]; intros n evs w.
  - exists w. split; [reflexivity | repeat split].
  - cbn [Actor.await_pending]. destruct t as [|r].
    + rewrite (run_until_complete_done E conf evs _ _ (Ok tt) _ (drive_done _ _ _ _)).
      cbv beta iota zeta.
      match goal with
      | |- context [Actor.await_pending E conf (S n) tasks evs _ ?w2] =>
        destruct (IH (S n) evs w2) as (w' & Hrun & Hsame)
      end.
      exists w'. rewrite Hrun. split; [reflexivity|].
      eapply same_but_log_trans; [exact Hsame|].
      eapply same_but_log_trans; apply same_but_log_add_log.
    + destruct Ht as [-> | ->]; cbv beta iota zeta;
        match goal with
        | |- context [Actor.await_pending E conf (S n) tasks evs _ ?w2] =>
          destruct (IH (S n) evs w2) as (w' & Hrun & Hsame)
        end;
        exists w'; rewrite Hrun; (split; [reflexivity|]);
        (eapply same_but_log_trans; [exact Hsame|]).
      * eapply same_but_log_trans; apply same_but_log_add_log.
      * apply same_but_log_add_log.
Qed.

(** The message [b'STOP'] on an actor at rest: the handler queues
    ["STOP"], the loop reads it, and the coroutine closes the driver and
    ends; later events are not consumed. *)
Lemma run_until_complete_stop_message (E : Env) (conf : Conf) (w : World) :
  Running conf w ->
  exists w2,
    (forall later,
       Actor.run_until_complete E conf (EvControlMsg STOP_payload :: later) CoroWaiting w =
         (Finished (Ok tt), CoroDone (Ok tt), w2, later)) /\
    w_calls w2 = w_calls w ++ [CallClose] /\
    live (w_driver w2) = None /\
    items (w_queue w2) = [] /\
    process_state w2 = process_state w.
Proof.
  intros Hrun. pose proof Hrun as (Hmax & Hit & Hsub).
  eexists. split; [intros later|].
  - cbn [Actor.run_until_complete]. rewrite (drive_running E conf w Hrun).
    apply run_until_complete_done.
    unfold Actor.deliver_control. rewrite Hsub.
    rewrite (handle_signal_result STOP_payload WORKER_CONTROL_SIGNAL_STOP w Hmax eq_refl).
    cbn [snd]. apply (drive_waiting_stop E conf _ [] []).
    + simpl. rewrite Hit. reflexivity.
    + apply not_elem_of_nil.
  - simpl. auto.
Qed.

(** X5: the whole life of a worker.  A fresh actor with a valid
    configuration, any run of control messages that do not decode to
    ["STOP"], then the message [b'STOP'] and nothing after it: [run]
    returns normally; the bus saw the [N + 1] subscriptions, no request,
    and exactly one [close]; no connection is live, the queue is empty and
    the event loop is closed. *)
Theorem X5_run_until_stop_message (E : Env) (conf : Conf) (pending : list Task)
  (datas : list PyBytes) (w : World) (fns : list TaskFn) :
  broker_up E = true ->
  live (w_driver w) = None ->
  Forall2 (fun ts f => get_module E (ts_task ts) = Some f) (TASKS conf) fns ->
  maxsize (w_queue w) <= 0 ->
  WORKER_CONTROL_SIGNAL_STOP ∉ items (w_queue w) ->
  Forall not_stop datas ->
  Forall benign pending ->
  exists w',
    Actor.run E conf pending
      (map EvControlMsg datas ++ [EvControlMsg STOP_payload]) w =
      (Finished (Ok tt), w') /\
    w_calls w' =
      w_calls w ++ CallConnect
        :: map subscribe_call (created_subscriptions conf (TASKS conf) fns)
        ++ [CallClose] /\
    live (w_driver w') = None /\
    items (w_queue w') = [] /\
    w_loop_closed w' = true.
Proof.
  intros Hup Hnone Hfns Hmax Hno Hdatas Hpending.
  destruct (run_until_complete_new E conf (add_log LogStartRun w) fns Hup Hnone Hfns Hmax Hno)
    as (w1 & Hrun1 & Hcalls1 & _ & Hnew).
  destruct (run_until_complete_messages E conf datas Hdatas w1 (running_serving _ _ Hrun1))
    as (w2 & Hrun2 & Hcalls2 & _ & _ & Hmsgs).
  destruct (run_until_complete_stop_message E conf w2 Hrun2)
    as (w3 & Hstop & Hcalls3 & Hlive3 & Hit3 & _).
  unfold Actor.run. rewrite Hnew, Hmsgs, Hstop.
  destruct (await_pending_done E conf pending Hpending O []
              (add_log LogStopCancelPending w3))
    as (w4 & Hawait & (Hq & Hd & Hc & _)).
  rewrite Hawait. eexists. split; [reflexivity|]. simpl.
  rewrite Hc, Hd, Hq. simpl.
  rewrite Hcalls3, Hcalls2, Hcalls1, Hlive3, Hit3. simpl.
  rewrite <- !app_assoc. simpl. auto.
Qed.

Lemma X5_run_until_stop_message_witness :
  exists w',
    Actor.run example_env example_conf [MainTask; OtherTask (Ok tt)]
      (map EvControlMsg [[x53; x54; x41; x52; x54]; [xff]]
         ++ [EvControlMsg STOP_payload])
      (Actor.__init__ example_conf ∅) = (Finished (Ok tt), w') /\
    close_calls (w_calls w') = 1%nat /\
    w_loop_closed w' = true.
Proof.
  destruct (X5_run_until_stop_message example_env example_conf
              [MainTask; OtherTask (Ok tt)] [[x53; x54; x41; x52; x54]; [xff]]
              (Actor.__init__ example_conf ∅)
              [mkTaskFn (pystr "foo")]
              eq_refl eq_refl ltac:(repeat constructor)
              ltac:(simpl; lia) (not_elem_of_nil _)
              ltac:(repeat constructor; discriminate)
              ltac:(repeat constructor))
    as (w' & Hrun & Hcalls & _ & _ & Hclosed).
  exists w'. split; [exact Hrun|]. split; [|exact Hclosed].
  rewrite Hcalls. reflexivity.
Defined.

(** X6: [run] returns normally only from the two paths of its [try]
    statement: when it does, its first [run_until_complete] ended normally
    or with [KeyboardInterrupt], the event loop is closed and the last
    record logged is the farewell. *)
Theorem X6_run_returns_normally_only_after (E : Env) (conf : Conf)
  (pending : list Task) (evs : list Event) (w w' : World) :
  Actor.run E conf pending evs w = (Finished (Ok tt), w') ->
  w_loop_closed w' = true /\
  last (w_log w') = Some LogBye /\
  exists r c w1 evs1,
    Actor.run_until_complete E conf evs CoroNew (add_log LogStartRun w) =
      (Finished r, c, w1, evs1) /\
    (r = Ok tt \/ r = Raise KeyboardInterrupt).
Proof.
  unfold Actor.run.
  destruct (Actor.run_until_complete E conf evs CoroNew (add_log LogStartRun w))
    as [[[o c] w1] evs1].
  destruct o as [r| |]; [|discriminate|discriminate].
  assert (Hr : (r = Ok tt \/ r = Raise KeyboardInterrupt) \/
               exists e, r = Raise e /\ e <> KeyboardInterrupt).
  { destruct r as [[]|e]; [auto|].
    destruct (decide (e = KeyboardInterrupt)) as [->|Hne]; eauto. }
  destruct Hr as [Hr | (e & -> & Hne)].
  - match goal with
    | |- context [let '(r1, w2) := ?x in _] => destruct x as [r1 w2]
    end.
    destruct (Actor.await_pending E conf 0 pending evs1 c (add_log LogStopCancelPending w2))
      as [[[o2 c2] w4] evs2].
    destruct o2 as [[[]|e2]| |]; try discriminate.
    destruct r1 as [[]|e1]; intros H; [|discriminate H].
    injection H as <-. split; [reflexivity|]. split.
    + simpl. apply last_snoc.
    + exists r, c, w1, evs1. split; [reflexivity | exact Hr].
  - destruct e; try congruence; cbv beta iota zeta;
      match goal with
      | |- context [Actor.await_pending E conf 0 pending evs1 c ?w3] =>
        destruct (Actor.await_pending E conf 0 pending evs1 c w3)
          as [[[o2 c2] w4] evs2]
      end;
      destruct o2 as [[[]|e2]| |]; discriminate.
Qed.

Lemma X6_run_returns_normally_only_after_witness :
  last (w_log (Actor.run example_env example_conf [MainTask]
                 [EvControlMsg STOP_payload] (Actor.__init__ example_conf ∅)).2) =
    Some LogBye.
Proof.
  refine (proj1 (proj2 (X6_run_returns_normally_only_after example_env example_conf
                          [MainTask] [EvControlMsg STOP_payload]
                          (Actor.__init__ example_conf ∅)
                          (Actor.run example_env example_conf [MainTask]
                             [EvControlMsg STOP_payload]
                             (Actor.__init__ example_conf ∅)).2 _))).
  vm_compute. reflexivity.
Defined.

(** X7: SIGTERM does not stop the worker.  On a constructed actor with a
    valid configuration, a SIGTERM that arrives while [run] waits makes the
    handler call raise [TypeError].  Without uvloop the exception escapes
    from [run_until_complete], and whatever tasks are pending and whatever
    follows, [run] does not return normally.  With uvloop installed the
    loop contains the exception: [run] ends as it would have without the
    signal, and in the same state but for the log. *)
Theorem X7_sigterm_does_not_stop_run (E : Env) (conf : Conf)
  (tab : gmap Z Callable) (fns : list TaskFn) (pending : list Task)
  (later : list Event) :
  broker_up E = true ->
  Forall2 (fun ts f => get_module E (ts_task ts) = Some f) (TASKS conf) fns ->
  let w := Actor.__init__ conf tab in
  let res := Actor.run E conf pending (EvSignal SIGTERM :: later) w in
  if UVLOOP_ENABLED conf
  then res.1 = (Actor.run E conf pending later w).1 /\
       same_but_log res.2 (Actor.run E conf pending later w).2
  else res.1 <> Finished (Ok tt).
Proof.
  intros Hup Hfns w res.
  destruct (run_until_complete_new E conf (add_log LogStartRun w) fns Hup eq_refl Hfns
              ltac:(simpl; lia) (not_elem_of_nil _))
    as (w1 & Hrun1 & Hcalls1 & Hp1 & Hnew).
  assert (Hsig : Actor.deliver_signal SIGTERM w1 = Some (Raise TypeError, w1)).
  { unfold Actor.deliver_signal.
    rewrite (process_state_sigtab _ _ Hp1). simpl.
    rewrite lookup_insert_eq. reflexivity. }
  destruct (UVLOOP_ENABLED conf) eqn:Huv.
  - assert (Htry : Actor.run_until_complete E conf (EvSignal SIGTERM :: later) CoroNew
                     (add_log LogStartRun w) =
                   Actor.run_until_complete E conf later CoroNew (add_log LogStartRun w)).
    { rewrite !Hnew. cbn [Actor.run_until_complete].
      rewrite (drive_running E conf w1 Hrun1), Hsig.
      unfold contained_by_loop. rewrite Huv. cbn [is_base_exception negb andb].
      destruct later; cbn [Actor.run_until_complete];
        rewrite (drive_running E conf w1 Hrun1); reflexivity. }
    subst res. unfold Actor.run. rewrite Htry.
    split; [reflexivity | repeat split].
  - assert (Htry : Actor.run_until_complete E conf (EvSignal SIGTERM :: later) CoroNew
                     (add_log LogStartRun w) =
                   (Finished (Raise TypeError), CoroWaiting, w1, later)).
    { rewrite Hnew. cbn [Actor.run_until_complete].
      rewrite (drive_running E conf w1 Hrun1), Hsig.
      unfold contained_by_loop. rewrite Huv. reflexivity. }
    subst res. unfold Actor.run. rewrite Htry. cbv beta iota zeta.
    destruct (Actor.await_pending E conf 0 pending later CoroWaiting
                (add_log LogStopCancelPending w1)) as [[[o2 c2] w4] evs2].
    destruct o2 as [[[]|e2]| |]; simpl; discriminate.
Qed.

Lemma X7_sigterm_does_not_stop_run_witness :
  (Actor.run example_env example_conf [MainTask]
     [EvSignal SIGTERM; EvControlMsg STOP_payload]
     (Actor.__init__ example_conf ∅)).1 <> Finished (Ok tt).
Proof.
  assert (Hf : Forall2 (fun ts f => get_module example_env (ts_task ts) = Some f)
                 (TASKS example_conf) [mkTaskFn (pystr "foo")])
    by (repeat constructor).
  exact (X7_sigterm_does_not_stop_run example_env example_conf ∅
           [mkTaskFn (pystr "foo")] [MainTask] [EvControlMsg STOP_payload]
           eq_refl Hf).
Defined.

(** ** The control handler and the codec *)

(** X8: the handler never returns normally, whatever the payload and the
    queue.  A payload that does not decode raises [UnicodeDecodeError] and
    leaves the state as it was: nothing is logged, nothing queued.  One
    that decodes is logged first; then the call raises [QueueFull] if the
    queue is full, with nothing queued, and otherwise queues the value and
    raises [TypeError], from awaiting the [None] that [put_nowait]
    returned. *)
Theorem X8_handle_signal_always_raises (data : PyBytes) (w : World) :
  Actor._handle_signal data w =
    match utf8_decode data with
    | None => (Raise UnicodeDecodeError, w)
    | Some s =>
      if Queue_.full (w_queue w)
      then (Raise QueueFull, add_log (LogGotWorkerSignal s) w)
      else (Raise TypeError,
            set_queue (mkQueue (maxsize (w_queue w)) (items (w_queue w) ++ [s]))
              (add_log (LogGotWorkerSignal s) w))
    end.
Proof.
  unfold Actor._handle_signal, mbind, M_bind, bytes_decode.
  destruct (utf8_decode data) as [s|] eqn:Hdec; [|reflexivity].
  cbn [logging modify]. unfold put_nowait, Queue_.put_nowait.
  cbn [add_log w_queue].
  destruct (Queue_.full (w_queue w)) eqn:Hfull; reflexivity.
Qed.

Lemma byte_val_inj (a b : byte) : byte_val a = byte_val b -> a = b.
Proof.
  unfold byte_val. intros H. apply N2Z.inj in H.
  pose proof (Byte.of_to_N a) as Ha. pose proof (Byte.of_to_N b) as Hb.
  rewrite H in Ha. congruence.
Qed.

Lemma fmap_cons_some (cp cp' : Z) (o : option PyStr) (s : PyStr) :
  cons cp' <$> o = Some (cp :: s) -> cp' = cp /\ o = Some s.
Proof. destruct o; simpl; intros H; [|discriminate]. injection H as -> ->. auto. Qed.

(** A code point below 0x80 comes from one byte, the byte of that value;
    the longer forms only yield code points from 0x80 on. *)
Lemma utf8_decode_head_ascii (b : byte) (rest : PyBytes) (cp : Z) (s : PyStr) :
  utf8_decode (b :: rest) = Some (cp :: s) ->
  cp < 0x80 ->
  byte_val b = cp /\ utf8_decode rest = Some s.
Proof.
  intros H Hcp. cbn [utf8_decode] in H. cbv zeta in H.
  destruct (byte_val b <? 0x80) eqn:H0.
  - apply fmap_cons_some in H. exact H.
  - exfalso.
    destruct ((0xC0 <=? byte_val b) && (byte_val b <? 0xE0)).
    { destruct rest as [|b1 r1]; [discriminate|].
      match type of H with (if ?g then _ else _) = _ => destruct g eqn:Hg end;
        [|discriminate].
      apply fmap_cons_some in H as [<- _].
      apply andb_true_iff in Hg as [_ Hg]. apply Z.leb_le in Hg. lia. }
    destruct ((0xE0 <=? byte_val b) && (byte_val b <? 0xF0)).
    { destruct rest as [|b1 [|b2 r2]]; [discriminate|discriminate|].
      match type of H with (if ?g then _ else _) = _ => destruct g eqn:Hg end;
        [|discriminate].
      apply fmap_cons_some in H as [<- _].
      apply andb_true_iff in Hg as [Hg _]. apply andb_true_iff in Hg as [_ Hg].
      apply Z.leb_le in Hg. lia. }
    destruct ((0xF0 <=? byte_val b) && (byte_val b <? 0xF8)); [|discriminate].
    destruct rest as [|b1 [|b2 [|b3 r3]]]; [discriminate|discriminate|discriminate|].
    match type of H with (if ?g then _ else _) = _ => destruct g eqn:Hg end;
      [|discriminate].
    apply fmap_cons_some in H as [<- _].
    apply andb_true_iff in Hg as [Hg _]. apply andb_true_iff in Hg as [_ Hg].
    apply Z.leb_le in Hg. lia.
Qed.

Lemma utf8_decode_empty (data : PyBytes) : utf8_decode data = Some [] -> data = [].
Proof.
  destruct data as [|b rest]; [reflexivity|]. intros H. exfalso.
  cbn [utf8_decode] in H. cbv zeta in H.
  repeat match type of H with
         | (if ?g then _ else _) = _ => destruct g
         | match ?l with [] => _ | _ :: _ => _ end = _ => destruct l
         | _ <$> ?o = _ => destruct o; simpl in H
         end; discriminate.
Qed.

(** The only payload that decodes to ["STOP"] is [b'STOP']. *)
Lemma utf8_decode_stop_inv (data : PyBytes) :
  utf8_decode data = Some WORKER_CONTROL_SIGNAL_STOP -> data = STOP_payload.
Proof.
  change WORKER_CONTROL_SIGNAL_STOP with [83; 84; 79; 80].
  intros H.
  destruct data as [|b0 data]; [discriminate|].
  apply utf8_decode_head_ascii in H as [H0 H]; [|lia].
  destruct data as [|b1 data]; [discriminate|].
  apply utf8_decode_head_ascii in H as [H1 H]; [|lia].
  destruct data as [|b2 data]; [discriminate|].
  apply utf8_decode_head_ascii in H as [H2 H]; [|lia].
  destruct data as [|b3 data]; [discriminate|].
  apply utf8_decode_head_ascii in H as [H3 H]; [|lia].
  apply utf8_decode_empty in H. subst data. unfold STOP_payload.
  rewrite (byte_val_inj b0 x53 H0), (byte_val_inj b1 x54 H1),
    (byte_val_inj b2 x4f H2), (byte_val_inj b3 x50 H3).
  reflexivity.
Qed.

(** X9: over the bus, exactly one payload stops the worker.  On an actor
    at rest in RUNNING, a control message takes the coroutine to its end
    if and only if its payload is the four bytes [b'STOP']: no other
    encoding, case or padding of the word does, and every other message
    leaves the actor at rest in RUNNING. *)
Theorem X9_only_STOP_bytes_stop_the_worker (E : Env) (conf : Conf) (w : World)
  (data : PyBytes) :
  Running conf w ->
  let r := Actor.drive E conf CoroWaiting (Actor.deliver_control conf data w) in
  (r.1 = CoroDone (Ok tt) <-> data = STOP_payload) /\
  (data <> STOP_payload -> r.1 = CoroWaiting /\ Running conf r.2).
Proof.
  intros Hrun r.
  assert (Hns : not_stop data -> r.1 = CoroWaiting /\ Running conf r.2).
  { intros Hns.
    destruct (deliver_control_not_stop conf data w Hrun Hns) as (Hserving & _).
    destruct (drive_serving E conf _ Hserving) as (w' & Hd & Hrun' & _).
    subst r. rewrite Hd. split; [reflexivity | exact Hrun']. }
  assert (Hother : data <> STOP_payload -> r.1 = CoroWaiting /\ Running conf r.2).
  { intros Hne. apply Hns. intros Hdec. apply Hne.
    apply utf8_decode_stop_inv. exact Hdec. }
  split; [|exact Hother]. split.
  - intros Hdone.
    destruct (decide (utf8_decode data = Some WORKER_CONTROL_SIGNAL_STOP))
      as [Hdec|Hdec]; [apply utf8_decode_stop_inv; exact Hdec|].
    destruct (Hns Hdec) as [Hw _]. rewrite Hw in Hdone. discriminate Hdone.
  - intros ->. destruct (run_until_complete_stop_message E conf w Hrun)
      as (w2 & Hstop & _).
    specialize (Hstop []). cbn [Actor.run_until_complete] in Hstop.
    rewrite (drive_running E conf w Hrun) in Hstop.
    subst r. destruct (Actor.drive E conf CoroWaiting
                         (Actor.deliver_control conf STOP_payload w)) as [c1 w1].
    destruct c1; try discriminate Hstop.
    injection Hstop as -> _. reflexivity.
Qed.

Lemma X9_only_STOP_bytes_stop_the_worker_witness :
  (Actor.drive example_env example_conf CoroWaiting
     (Actor.deliver_control example_conf [x73; x74; x6f; x70] example_running)).1 =
    CoroWaiting.
Proof.
  refine (proj1 (proj2 (X9_only_STOP_bytes_stop_the_worker example_env example_conf
                          example_running [x73; x74; x6f; x70] _) _)).
  - split; [simpl; lia|]. split; reflexivity.
  - discriminate.
Defined.

Lemma lor_bound (n a b : Z) :
  0 <= a < 2 ^ n -> 0 <= b < 2 ^ n -> 0 <= Z.lor a b < 2 ^ n.
Proof.
  intros [Ha0 Ha] [Hb0 Hb].
  assert (H0 : 0 <= Z.lor a b) by (apply Z.lor_nonneg; auto).
  split; [exact H0|].
  destruct (Z.eq_dec (Z.lor a b) 0) as [Hz|Hz]; [lia|].
  assert (Hn : 0 < n).
  { destruct (Z_lt_le_dec 0 n) as [|Hle]; [assumption|]. exfalso.
    assert (2 ^ n <= 1) by
      (destruct (Z.eq_dec n 0) as [->|]; [simpl; lia | rewrite Z.pow_neg_r; lia]).
    assert (a = 0) by lia. assert (b = 0) by lia. subst. apply Hz. reflexivity. }
  apply Z.log2_lt_pow2; [lia|].
  rewrite Z.log2_lor by assumption.
  apply Z.max_lub_lt.
  - destruct (Z.eq_dec a 0) as [->|]; [simpl; lia | apply Z.log2_lt_pow2; lia].
  - destruct (Z.eq_dec b 0) as [->|]; [simpl; lia | apply Z.log2_lt_pow2; lia].
Qed.

Lemma land_ones_bound (v k : Z) : 0 <= k -> 0 <= Z.land v (Z.ones k) < 2 ^ k.
Proof.
  intros Hk. rewrite Z.land_ones by exact Hk. apply Z.mod_pos_bound.
  apply Z.pow_pos_nonneg; lia.
Qed.

Lemma low6_bound (v : Z) : 0 <= low6 v < 64.
Proof. apply (land_ones_bound v 6). lia. Qed.

Lemma cp2_bound (v0 v1 : Z) : 0 <= cp2 v0 v1 < 0x800.
Proof.
  unfold cp2. apply (lor_bound 11).
  - pose proof (land_ones_bound v0 5 ltac:(lia)) as H.
    change (Z.ones 5) with 0x1F in H. rewrite Z.shiftl_mul_pow2 by lia.
    change (2 ^ 6) with 64. change (2 ^ 5) with 32 in H. change (2 ^ 11) with 2048. lia.
  - pose proof (low6_bound v1). change (2 ^ 11) with 2048. lia.
Qed.

Lemma cp3_bound (v0 v1 v2 : Z) : 0 <= cp3 v0 v1 v2 < 0x10000.
Proof.
  unfold cp3. apply (lor_bound 16); [|apply (lor_bound 16)].
  - pose proof (land_ones_bound v0 4 ltac:(lia)) as H.
    change (Z.ones 4) with 0x0F in H. rewrite Z.shiftl_mul_pow2 by lia.
    change (2 ^ 12) with 4096. change (2 ^ 4) with 16 in H. change (2 ^ 16) with 65536. lia.
  - pose proof (low6_bound v1). rewrite Z.shiftl_mul_pow2 by lia.
    change (2 ^ 6) with 64. change (2 ^ 16) with 65536. lia.
  - pose proof (low6_bound v2). change (2 ^ 16) with 65536. lia.
Qed.

Lemma byte_val_nonneg (b : byte) : 0 <= byte_val b.
Proof. unfold byte_val. apply N2Z.is_nonneg. Qed.

(** Strict decoding yields scalar values only. *)
Lemma utf8_decode_scalar (n : nat) :
  forall (data : PyBytes) (s : PyStr),
    (length data <= n)%nat ->
    utf8_decode data = Some s ->
    Forall is_scalar_value s.
Proof.
  induction n as [|n IH]; intros data s Hlen H.
  - destruct data; [|simpl in Hlen; lia]. injection H as <-. constructor.
  - destruct data as [|b rest]; [injection H as <-; constructor|].
    cbn [utf8_decode] in H. cbv zeta in H. cbn [length] in Hlen.
    destruct (byte_val b <? 0x80) eqn:H0.
    { destruct (utf8_decode rest) as [s'|] eqn:Hrest; [|discriminate].
      injection H as <-. constructor; [|apply (IH rest); [lia | exact Hrest]].
      pose proof (byte_val_nonneg b). apply Z.ltb_lt in H0.
      unfold is_scalar_value. lia. }
    destruct ((0xC0 <=? byte_val b) && (byte_val b <? 0xE0)).
    { destruct rest as [|b1 r1]; [discriminate|].
      match type of H with (if ?g then _ else _) = _ => destruct g eqn:Hg end;
        [|discriminate].
      destruct (utf8_decode r1) as [s'|] eqn:Hrest; [|discriminate].
      injection H as <-. cbn [length] in Hlen.
      constructor; [|apply (IH r1); [lia | exact Hrest]].
      pose proof (cp2_bound (byte_val b) (byte_val b1)).
      unfold is_scalar_value. lia. }
    destruct ((0xE0 <=? byte_val b) && (byte_val b <? 0xF0)).
    { destruct rest as [|b1 [|b2 r2]]; [discriminate|discriminate|].
      match type of H with (if ?g then _ else _) = _ => destruct g eqn:Hg end;
        [|discriminate].
      destruct (utf8_decode r2) as [s'|] eqn:Hrest; [|discriminate].
      injection H as <-. cbn [length] in Hlen.
      constructor; [|apply (IH r2); [lia | exact Hrest]].
      pose proof (cp3_bound (byte_val b) (byte_val b1) (byte_val b2)).
      apply andb_true_iff in Hg as [_ Hsur]. apply negb_true_iff in Hsur.
      unfold is_surrogate in Hsur. apply andb_false_iff in Hsur.
      rewrite !Z.leb_gt in Hsur. unfold is_scalar_value. lia. }
    destruct ((0xF0 <=? byte_val b) && (byte_val b <? 0xF8)); [|discriminate].
    destruct rest as [|b1 [|b2 [|b3 r3]]]; [discriminate|discriminate|discriminate|].
    match type of H with (if ?g then _ else _) = _ => destruct g eqn:Hg end;
      [|discriminate].
    destruct (utf8_decode r3) as [s'|] eqn:Hrest; [|discriminate].
    injection H as <-. cbn [length] in Hlen.
    constructor; [|apply (IH r3); [lia | exact Hrest]].
    apply andb_true_iff in Hg as [Hg Hhi]. apply andb_true_iff in Hg as [_ Hlo].
    apply Z.leb_le in Hhi, Hlo. unfold is_scalar_value. lia.
Qed.

Lemma STOP_scalar : Forall is_scalar_value WORKER_CONTROL_SIGNAL_STOP.
Proof.
  change WORKER_CONTROL_SIGNAL_STOP with [83; 84; 79; 80].
  repeat constructor; unfold is_scalar_value; lia.
Qed.

Lemma put_nowait_wellformed (item : PyStr) (w : World) :
  Forall is_scalar_value item ->
  queue_wellformed w ->
  queue_wellformed (put_nowait item w).2.
Proof.
  intros Hitem Hw. unfold queue_wellformed, put_nowait, Queue_.put_nowait.
  destruct (Queue_.full (w_queue w)); simpl; [exact Hw|].
  apply Forall_app. split; [exact Hw|]. constructor; [exact Hitem | constructor].
Qed.

(** X10: the control queue only ever holds well-formed text.  If every
    queued value is a string of Unicode scalar values, it is still so after
    [stop] and after the handler has taken any payload whatever: strict
    decoding lets through no surrogate, no overlong form and nothing above
    U+10FFFF. *)
Theorem X10_queue_holds_scalar_values (conf : Conf) (data : PyBytes) (w : World) :
  queue_wellformed w ->
  queue_wellformed (Actor.stop w).2 /\
  queue_wellformed (Actor._handle_signal data w).2 /\
  queue_wellformed (Actor.deliver_control conf data w).
Proof.
  intros Hw.
  assert (Hstop : queue_wellformed (Actor.stop w).2).
  { unfold Actor.stop, mbind, M_bind.
    pose proof (put_nowait_wellformed WORKER_CONTROL_SIGNAL_STOP w STOP_scalar Hw) as Hp.
    destruct (put_nowait WORKER_CONTROL_SIGNAL_STOP w) as [[v|e] w1]; exact Hp. }
  assert (Hh : queue_wellformed (Actor._handle_signal data w).2).
  { unfold Actor._handle_signal, mbind, M_bind, bytes_decode.
    destruct (utf8_decode data) as [s|] eqn:Hdec; [|exact Hw].
    cbn [logging modify].
    pose proof (put_nowait_wellformed s (add_log (LogGotWorkerSignal s) w)
                  (utf8_decode_scalar _ data s (le_n _) Hdec) Hw) as Hp.
    destruct (put_nowait s (add_log (LogGotWorkerSignal s) w)) as [[v|e] w1];
      exact Hp. }
  split; [exact Hstop|]. split; [exact Hh|].
  unfold Actor.deliver_control.
  destruct (Actor.has_control_subscription conf w); [exact Hh | exact Hw].
Qed.

Lemma X10_queue_holds_scalar_values_witness :
  queue_wellformed
    (Actor._handle_signal [xe2; x82; xac; xed; xa0; x80]
       (Actor._handle_signal [xe2; x82; xac] (Actor.__init__ example_conf ∅)).2).2.
Proof.
  refine (proj1 (proj2 (X10_queue_holds_scalar_values example_conf
                          [xe2; x82; xac; xed; xa0; x80]
                          (Actor._handle_signal [xe2; x82; xac]
                             (Actor.__init__ example_conf ∅)).2 _))).
  refine (proj1 (proj2 (X10_queue_holds_scalar_values example_conf [xe2; x82; xac]
                          (Actor.__init__ example_conf ∅) _))).
  constructor.
Defined.

(** ** Requests that fail, and requests in a row *)

(** X11: a request that times out leaves the connection open.  The
    [TimeoutError] leaves the [async with] body through a context manager
    that has no [try]: the request went out once, [close] is not called,
    and the connection the call opened or reused stays live. *)
Theorem X11_request_timeout_leaves_connection_open (E : Env) (name : PyStr)
  (payload : PyBytes) (loop : option Loop) (w : World) :
  broker_up E = true ->
  (forall latency reply,
     responder E name payload = Some (latency, reply) -> default_timeout E < latency) ->
  let r := Actor.request E name payload loop w in
  r.1 = Raise TimeoutError /\
  request_calls (w_calls r.2) = request_calls (w_calls w) ++ [(name, payload)] /\
  close_calls (w_calls r.2) = close_calls (w_calls w) /\
  is_Some (live (w_driver r.2)) /\
  (forall c, live (w_driver w) = Some c -> live (w_driver r.2) = Some c).
Proof.
  intros Hup Hlate r. subst r.
  rewrite (request_unfold E name payload loop w Hup).
  assert (Hres : reply_within E name payload (default_timeout E) = Raise TimeoutError).
  { unfold reply_within.
    destruct (responder E name payload) as [[latency reply]|]; [|reflexivity].
    specialize (Hlate latency reply eq_refl).
    destruct (latency <=? default_timeout E) eqn:Hle; [lia | reflexivity]. }
  rewrite Hres. cbn [fst snd]. split; [reflexivity|].
  unfold connected. destruct (live (w_driver w)) as [c|] eqn:Hlive; simpl.
  - rewrite request_calls_app, close_calls_app, Hlive. simpl.
    split; [reflexivity|]. split; [lia|]. split; [eauto|].
    intros c' Hc'. exact Hc'.
  - rewrite !request_calls_app, !close_calls_app. simpl.
    rewrite app_nil_r. split; [reflexivity|]. split; [lia|]. split; [eauto|].
    intros c' Hc'. discriminate Hc'.
Qed.

Lemma X11_request_timeout_leaves_connection_open_witness :
  is_Some (live (w_driver
    (Actor.request (mkEnv true (get_module example_env) (fun _ _ => None) 500
                      (perf_counter example_env))
       (pystr "foo.get") [x7b; x7d] None (Actor.__init__ example_conf ∅)).2)).
Proof.
  refine (proj1 (proj2 (proj2 (proj2
    (X11_request_timeout_leaves_connection_open
       (mkEnv true (get_module example_env) (fun _ _ => None) 500
          (perf_counter example_env))
       (pystr "foo.get") [x7b; x7d] None (Actor.__init__ example_conf ∅) _ _))))).
  - reflexivity.
  - intros latency reply H. discriminate H.
Defined.

(** X12: without a live connection and with the broker unreachable,
    [request] and [send_task] raise [ConnectionError] after the one connect
    attempt: no request goes out and [close] is not called; [send_task]
    has read the clock once and logs nothing. *)
Theorem X12_request_broker_down (E : Env) (name : PyStr) (payload : PyBytes)
  (loop : option Loop) (w : World) :
  broker_up E = false ->
  live (w_driver w) = None ->
  Actor.request E name payload loop w =
    (Raise ConnectionError, record_call CallConnect w) /\
  Actor.send_task E name payload w =
    (Raise ConnectionError, record_call CallConnect (tick (new_loop w))).
Proof.
  intros Hdown Hnone.
  assert (Hreq : forall l w0, live (w_driver w0) = None ->
            Actor.request E name payload l w0 =
              (Raise ConnectionError, record_call CallConnect w0)).
  { intros l w0 Hn.
    unfold Actor.request, Actor.nats_driver, mbind, M_bind, NatsDriver.get_connection.
    rewrite Hn, Hdown. reflexivity. }
  split; [apply Hreq; exact Hnone|].
  unfold Actor.send_task, Actor.simple_eventloop, Actor.time_perf_counter,
    mbind, M_bind. cbv beta iota.
  rewrite Hreq by exact Hnone. reflexivity.
Qed.

Lemma X12_request_broker_down_witness :
  (Actor.request (mkEnv false (get_module example_env) (responder example_env) 500
                    (perf_counter example_env))
     (pystr "foo.get") [x7b; x7d] None (Actor.__init__ example_conf ∅)).1 =
    Raise ConnectionError.
Proof.
  rewrite (proj1 (X12_request_broker_down
                    (mkEnv false (get_module example_env) (responder example_env) 500
                       (perf_counter example_env))
                    (pystr "foo.get") [x7b; x7d] None
                    (Actor.__init__ example_conf ∅) eq_refl eq_refl)).
  reflexivity.
Defined.

(** X13: requests in a row do not share a connection.  From a state
    without a live connection, two requests that are both answered in time
    each connect, send and close: the bus sees connect, request, close,
    connect, request, close, and no connection is live at the end.  After a
    request that timed out, however, the next one finds the connection
    still open and reuses it without connecting. *)
Theorem X13_requests_in_a_row (E : Env) (n1 n2 : PyStr) (p1 p2 : PyBytes)
  (l1 l2 : option Loop) (w : World) (lat2 : Z) (reply2 : PyBytes) :
  broker_up E = true ->
  live (w_driver w) = None ->
  responder E n2 p2 = Some (lat2, reply2) ->
  lat2 <= default_timeout E ->
  let r1 := Actor.request E n1 p1 l1 w in
  let r2 := Actor.request E n2 p2 l2 r1.2 in
  r2.1 = Ok reply2 /\
  live (w_driver r2.2) = None /\
  match r1.1 with
  | Ok _ =>
    w_calls r2.2 =
      w_calls w ++ [CallConnect; CallRequest n1 p1; CallClose;
                    CallConnect; CallRequest n2 p2; CallClose]
  | Raise _ =>
    w_calls r2.2 =
      w_calls w ++ [CallConnect; CallRequest n1 p1; CallRequest n2 p2; CallClose]
  end.
Proof.
  intros Hup Hnone Hresp Hlat r1 r2. subst r2 r1.
  rewrite (request_unfold E n1 p1 l1 w Hup).
  assert (H2 : reply_within E n2 p2 (default_timeout E) = Ok reply2).
  { unfold reply_within. rewrite Hresp.
    destruct (lat2 <=? default_timeout E) eqn:Hle; [reflexivity | lia]. }
  destruct (reply_within E n1 p1 (default_timeout E)) as [reply1|e1]; cbn [fst snd];
    rewrite (request_unfold E n2 p2 l2 _ Hup), H2; cbn [fst snd];
    (split; [reflexivity|]); (split; [reflexivity|]);
    unfold connected; rewrite Hnone; simpl; rewrite <- !app_assoc; reflexivity.
Qed.

Lemma X13_requests_in_a_row_witness :
  close_calls
    (w_calls (Actor.request example_env (pystr "foo.get") [x7b; x7d] None
                (Actor.request example_env (pystr "foo.get") [x7b; x7d] None
                   (Actor.__init__ example_conf ∅)).2).2) = 2%nat.
Proof.
  pose proof (X13_requests_in_a_row example_env (pystr "foo.get") (pystr "foo.get")
                [x7b; x7d] [x7b; x7d] None None (Actor.__init__ example_conf ∅)
                10 [x6f; x6b] eq_refl eq_refl eq_refl ltac:(simpl; lia)) as H.
  cbv zeta in H. destruct H as (_ & _ & H).
  change ((Actor.request example_env (pystr "foo.get") [x7b; x7d] None
             (Actor.__init__ example_conf ∅)).1) with (@Ok PyBytes [x6f; x6b]) in H.
  cbv iota in H. rewrite H. reflexivity.
Defined.

(** ** [send_task]: the clock and the log *)

Lemma request_keeps_log_and_process (E : Env) (name : PyStr) (payload : PyBytes)
  (loop : option Loop) (w : World) :
  w_log (Actor.request E name payload loop w).2 = w_log w /\
  process_state (Actor.request E name payload loop w).2 = process_state w.
Proof.
  unfold Actor.request, Actor.nats_driver, mbind, M_bind,
    NatsDriver.get_connection, Nats.request, Nats.request_with_timeout,
    NatsDriver.close.
  destruct w as [q [u [c|]] cs s l t lc n]; simpl.
  - destruct (responder E name payload) as [[lat reply]|]; simpl; auto.
    destruct (lat <=? default_timeout E); simpl; auto.
  - destruct (broker_up E); simpl; auto.
    destruct (responder E name payload) as [[lat reply]|]; simpl; auto.
    destruct (lat <=? default_timeout E); simpl; auto.
Qed.

(** X14: what [send_task] adds to a request.  It takes a new event loop
    and reads the clock before the request.  When the request returns it
    reads the clock a second time and logs exactly one record, that of the
    finished request; when the request raises, the second reading and the
    log record are skipped. *)
Theorem X14_send_task_clock_and_log (E : Env) (name : PyStr) (payload : PyBytes)
  (w : World) :
  let s := Actor.send_task E name payload w in
  w_loops s.2 = S (w_loops w) /\
  match s.1 with
  | Ok _ =>
    w_ticks s.2 = S (S (w_ticks w)) /\
    exists elapsed, w_log s.2 = w_log w ++ [LogRequestFinished elapsed]
  | Raise _ => w_ticks s.2 = S (w_ticks w) /\ w_log s.2 = w_log w
  end.
Proof.
  intros s. subst s.
  unfold Actor.send_task, Actor.simple_eventloop, Actor.time_perf_counter,
    mbind, M_bind. cbv beta iota.
  match goal with
  | |- context [Actor.request E name payload ?l ?w0] =>
    destruct (request_keeps_log_and_process E name payload l w0) as [Hlog Hp];
    destruct (Actor.request E name payload l w0) as [[response|e] w1]
  end; cbn [fst snd] in *;
    unfold process_state in Hp; injection Hp as _ Ht _ Hl; simpl in *.
  - rewrite Ht, Hl, Hlog. eauto.
  - rewrite Ht, Hl, Hlog. auto.
Qed.

(** ** [tools/pub.py] *)

Lemma reported_cons (i : Z) (range : list Z) :
  reported (i :: range) =
    if i mod 1000 =? 0 then i :: reported range else reported range.
Proof.
  unfold reported. destruct (Z.eqb_spec (i mod 1000) 0) as [H|H].
  - rewrite filter_cons_True by exact H. reflexivity.
  - rewrite filter_cons_False by exact H. reflexivity.
Qed.

(** With a clock that moves between any two readings, the loop publishes
    once per index and reports at the multiples of 1000. *)
Lemma publish_loop_returns (clock : nat -> Z) (name : PyStr) (payload : PyBytes) :
  (forall n, clock (S n) <> clock n) ->
  forall (range : list Z) (now : Z) (st : PubWorld) (n : nat),
    pw_ticks st = S n ->
    now = clock n ->
    exists st',
      publish_loop clock name payload range now st = (PubReturned, st') /\
      pw_published st' = pw_published st ++ replicate (length range) (name, payload) /\
      map snd (pw_printed st') = map snd (pw_printed st) ++ reported range /\
      pw_ticks st' = (pw_ticks st + 2 * length (reported range))%nat.
Proof.
  intros Hclock. induction range as [|i range IH]; intros now st n Hticks Hnow.
  - exists st. simpl. rewrite !app_nil_r. split; [reflexivity|].
    split; [reflexivity|]. split; [reflexivity | lia].
  - cbn [publish_loop]. cbv zeta. cbn [pw_published pw_printed pw_ticks].
    rewrite reported_cons.
    destruct (i mod 1000 =? 0).
    + rewrite Hticks, Hnow.
      destruct (Z.eqb_spec (clock (S n) - clock n) 0) as [Hz|Hz].
      { exfalso. apply (Hclock n). lia. }
      edestruct (IH (clock (S (S n)))
                   (mkPubWorld (pw_published st ++ [(name, payload)])
                      (pw_printed st ++ [(clock (S n) - clock n, i)]) (S (S (S n))))
                   (S (S n)) eq_refl eq_refl)
        as (st' & Hrun & Hpub & Hprint & Ht).
      exists st'. split; [exact Hrun|]. cbn [pw_published pw_printed pw_ticks] in *.
      split; [rewrite Hpub, <- app_assoc; reflexivity|].
      split; [rewrite Hprint, map_app, <- app_assoc; reflexivity|].
      rewrite Ht. simpl. lia.
    + edestruct (IH now
                   (mkPubWorld (pw_published st ++ [(name, payload)])
                      (pw_printed st) (pw_ticks st)) n Hticks Hnow)
        as (st' & Hrun & Hpub & Hprint & Ht).
      exists st'. split; [exact Hrun|]. cbn [pw_published pw_printed pw_ticks] in *.
      split; [rewrite Hpub, <- app_assoc; reflexivity|].
      split; [exact Hprint | exact Ht].
Qed.

(** X16: with a clock that moves between any two readings,
    [publish_msg] returns after exactly 10000 calls of [publish], all with
    the given name and payload, and ten printed lines, for the indices 0,
    1000, ..., 9000; the first line is printed after a single message.  It
    reads the clock 21 times. *)
Theorem X16_publish_msg_counts (clock : nat -> Z) (name : PyStr)
  (payload : PyBytes) (st : PubWorld) :
  (forall n, clock (S n) <> clock n) ->
  exists st',
    publish_msg clock name payload st = (PubReturned, st') /\
    pw_published st' =
      pw_published st ++ replicate (Z.to_nat 10000) (name, payload) /\
    map snd (pw_printed st') =
      map snd (pw_printed st)
        ++ [0; 1000; 2000; 3000; 4000; 5000; 6000; 7000; 8000; 9000] /\
    pw_ticks st' = (pw_ticks st + 21)%nat.
Proof.
  intros Hclock. unfold publish_msg.
  destruct (publish_loop_returns clock name payload Hclock (seqZ 0 10000)
              (clock (pw_ticks st))
              (mkPubWorld (pw_published st) (pw_printed st) (S (pw_ticks st)))
              (pw_ticks st) eq_refl eq_refl)
    as (st' & Hrun & Hpub & Hprint & Ht).
  exists st'. split; [exact Hrun|].
  assert (Hrep : reported (seqZ 0 10000) =
                 [0; 1000; 2000; 3000; 4000; 5000; 6000; 7000; 8000; 9000])
    by (vm_compute; reflexivity).
  rewrite Hrep in Hprint, Ht. rewrite length_seqZ in Hpub.
  cbn [pw_published pw_printed pw_ticks] in *.
  split; [exact Hpub|]. split; [exact Hprint|]. rewrite Ht. simpl. lia.
Qed.

Lemma X16_publish_msg_counts_witness :
  exists st',
    publish_msg Z.of_nat (pystr "foo.get") [x7b; x7d] (mkPubWorld [] [] 0) =
      (PubReturned, st') /\
    map snd (pw_printed st') =
      [0; 1000; 2000; 3000; 4000; 5000; 6000; 7000; 8000; 9000].
Proof.
  destruct (X16_publish_msg_counts Z.of_nat (pystr "foo.get") [x7b; x7d]
              (mkPubWorld [] [] 0) ltac:(intros n; lia))
    as (st' & Hrun & _ & Hprint & _).
  exists st'. split; [exact Hrun | exact Hprint].
Defined.

(** X17: when the clock has not moved between the start and the first
    report, [publish_msg] raises [ZeroDivisionError]: one message has been
    published and nothing has been printed. *)
Theorem X17_publish_msg_zero_elapsed (clock : nat -> Z) (name : PyStr)
  (payload : PyBytes) (st : PubWorld) :
  clock (S (pw_ticks st)) = clock (pw_ticks st) ->
  publish_msg clock name payload st =
    (PubZeroDivisionError,
     mkPubWorld (pw_published st ++ [(name, payload)]) (pw_printed st)
       (S (S (pw_ticks st)))).
Proof.
  intros Hsame. unfold publish_msg.
  rewrite (seqZ_cons 0 10000) by lia.
  generalize (seqZ (Z.succ 0) (Z.pred 10000)). intros rest.
  cbn [publish_loop]. cbv zeta. cbn [pw_published pw_printed pw_ticks].
  change (0 mod 1000 =? 0) with true. cbv iota.
  rewrite Hsame, Z.sub_diag. reflexivity.
Qed.

Lemma X17_publish_msg_zero_elapsed_witness :
  (publish_msg (fun _ => 7) (pystr "foo.get") [x7b; x7d] (mkPubWorld [] [] 0)).1 =
    PubZeroDivisionError.
Proof.
  rewrite (X17_publish_msg_zero_elapsed (fun _ => 7) (pystr "foo.get") [x7b; x7d]
             (mkPubWorld [] [] 0) eq_refl).
  reflexivity.
Defined.

(** ** Interrupting [run] *)




(** ** [run]: the [finally] block *)

Lemma turn_process_state (E : Env) (conf : Conf) (c : Coro) (w : World) :
  process_state (Actor._run_in_loop E conf c w).2 = process_state w.
Proof.
  destruct c as [| | |r]; cbn [Actor._run_in_loop].
  - destruct (Actor.startup E conf w) as [[[]|e] w1] eqn:Hs;
      pose proof (keeps_startup E conf w1 w _ Hs) as Hk; [|exact Hk].
    unfold Actor.while_loop. destruct (Actor.wait_for_stop _ _). exact Hk.
  - unfold Queue_.get. destruct (items (w_queue w)); [reflexivity|].
    unfold Actor.while_loop. destruct (Actor.wait_for_stop _ _). reflexivity.
  - rewrite close_spec. reflexivity.
  - reflexivity.
Qed.

Lemma drive_process_state (E : Env) (conf : Conf) (c : Coro) (w : World) :
  process_state (Actor.drive E conf c w).2 = process_state w.
Proof.
  unfold Actor.drive.
  pose proof (turn_process_state E conf c w) as H1.
  destruct (Actor._run_in_loop E conf c w) as [c1 w1].
  pose proof (turn_process_state E conf c1 w1) as H2.
  destruct (Actor._run_in_loop E conf c1 w1) as [c2 w2].
  pose proof (turn_process_state E conf c2 w2) as H3.
  simpl in *. congruence.
Qed.

Lemma deliver_control_process_state (conf : Conf) (data : PyBytes) (w : World) :
  process_state (Actor.deliver_control conf data w) = process_state w.
Proof.
  unfold Actor.deliver_control.
  destruct (Actor.has_control_subscription conf w); [|reflexivity].
  unfold Actor._handle_signal, mbind, M_bind, bytes_decode.
  destruct (utf8_decode data); [|reflexivity].
  cbn [logging modify]. unfold put_nowait, Queue_.put_nowait.
  cbn [add_log w_queue].
  destruct (Queue_.full (w_queue w)); reflexivity.
Qed.

(** [run_until_complete] never closes the event loop, nor touches the
    signal table or the clock. *)
Lemma run_until_complete_process_state (E : Env) (conf : Conf) (evs : list Event) :
  forall (c : Coro) (w : World) (o : Outcome) (c' : Coro) (w' : World)
         (evs' : list Event),
    Actor.run_until_complete E conf evs c w = (o, c', w', evs') ->
    process_state w' = process_state w.
Proof.
  induction evs as [|ev evs IH]; intros c w o c' w' evs' H;
    cbn [Actor.run_until_complete] in H;
    pose proof (drive_process_state E conf c w) as Hd;
    destruct (Actor.drive E conf c w) as [c1 w1]; cbn [snd] in Hd.
  - destruct c1; injection H as <- <- <- <-; exact Hd.
  - assert (Hev : forall o c' w' evs',
              match ev with
              | EvControlMsg data =>
                Actor.run_until_complete E conf evs c1 (Actor.deliver_control conf data w1)
              | EvSignal n =>
                match Actor.deliver_signal n w1 with
                | Some (Ok _, w2) => Actor.run_until_complete E conf evs c1 w2
                | Some (Raise e, w2) =>
                  if contained_by_loop conf e
                  then Actor.run_until_complete E conf evs c1 w2
                  else (Finished (Raise e), c1, w2, evs)
                | None => (Terminated, c1, w1, evs)
                end
              end = (o, c', w', evs') ->
              process_state w' = process_state w).
    { clear H. intros o0 c0 w0 evs0 H. destruct ev as [data|n].
      - rewrite (IH _ _ _ _ _ _ H), deliver_control_process_state. exact Hd.
      - destruct (Actor.deliver_signal n w1) as [[r w2]|] eqn:Hsig.
        + rewrite (deliver_signal_world n w1 w2 r Hsig) in H.
          destruct r as [[]|e]; [rewrite (IH _ _ _ _ _ _ H); exact Hd|].
          destruct (contained_by_loop conf e);
            [rewrite (IH _ _ _ _ _ _ H); exact Hd|].
          injection H as <- <- <- <-. exact Hd.
        + injection H as <- <- <- <-. exact Hd. }
    destruct c1; try exact (Hev _ _ _ _ H).
    injection H as <- <- <- <-. exact Hd.
Qed.

(** One round of the [for] loop on a task that is done or cancelled, or
    on the task of [_run_in_loop]: the loop goes on with the next task and
    the event loop is not closed. *)
Lemma await_pending_step (E : Env) (conf : Conf) (n : nat) (t : Task)
  (c : Coro) (w : World) :
  benign t ->
  at_finally c w ->
  exists c1 w2,
    at_finally c1 w2 /\
    w_loop_closed w2 = w_loop_closed w /\
    forall (tasks : list Task) (evs : list Event),
      Actor.await_pending E conf n (t :: tasks) evs c w =
        Actor.await_pending E conf (S n) tasks evs c1 w2.
Proof.
  intros Ht [Hmax Hc]. destruct t as [|r].
  - destruct Hc as [-> | [-> Hit]].
    + exists (CoroDone (Ok tt)),
        (add_log (LogPendingTaskDone n) (add_log (LogPendingTask n) w)).
      split; [split; [simpl; exact Hmax | left; reflexivity]|].
      split; [reflexivity|]. intros tasks evs. cbn [Actor.await_pending].
      rewrite (run_until_complete_done E conf evs _ _ (Ok tt) _ (drive_done _ _ _ _)).
      reflexivity.
    + eexists (CoroDone (Ok tt)), (add_log (LogPendingTaskDone n) _).
      split; [|split]; cycle 2.
      * intros tasks evs. cbn [Actor.await_pending].
        erewrite (run_until_complete_done E conf evs CoroWaiting);
          [|apply (drive_waiting_stop E conf _ [] []);
            [simpl; exact Hit | apply not_elem_of_nil]].
        reflexivity.
      * split; [simpl; exact Hmax | left; reflexivity].
      * reflexivity.
  - destruct Ht as [-> | ->].
    + exists c, (add_log (LogPendingTaskDone n) (add_log (LogPendingTask n) w)).
      split; [split; [simpl; exact Hmax | exact Hc]|].
      split; [reflexivity|]. intros tasks evs. reflexivity.
    + exists c, (add_log (LogPendingTask n) w).
      split; [split; [simpl; exact Hmax | exact Hc]|].
      split; [reflexivity|]. intros tasks evs. reflexivity.
Qed.

(** The [for] loop passes over a run of such tasks. *)
Lemma await_pending_prefix (E : Env) (conf : Conf) (pre : list Task) :
  Forall benign pre ->
  forall (n : nat) (c : Coro) (w : World),
    at_finally c w ->
    exists c' w',
      at_finally c' w' /\
      w_loop_closed w' = w_loop_closed w /\
      forall (rest : list Task) (evs : list Event),
        Actor.await_pending E conf n (pre ++ rest) evs c w =
          Actor.await_pending E conf (n + length pre) rest evs c' w'.
Proof.
  induction 1 as [|t pre Ht _ IH]; intros n c w Hc.
  - exists c, w. split; [exact Hc|]. split; [reflexivity|].
    intros rest evs. cbn [app length]. rewrite Nat.add_0_r. reflexivity.
  - destruct (await_pending_step E conf n t c w Ht Hc) as (c1 & w2 & Hc1 & Hl1 & Hstep).
    destruct (IH (S n) c1 w2 Hc1) as (c' & w' & Hc' & Hl' & Hrest).
    exists c', w'. split; [exact Hc'|]. split; [congruence|].
    intros rest evs. cbn [app length].
    rewrite Hstep, Hrest, Nat.add_succ_r. reflexivity.
Qed.

(** A task that raises anything but [CancelledError] ends the [for]
    loop: the exception is not suppressed. *)
Lemma await_pending_raise (E : Env) (conf : Conf) (n : nat) (e : Exn)
  (tasks : list Task) (evs : list Event) (c : Coro) (w : World) :
  e <> CancelledError ->
  Actor.await_pending E conf n (OtherTask (Raise e) :: tasks) evs c w =
    (Finished (Raise e), c, add_log (LogPendingTask n) w, evs).
Proof. intros He. destruct e; try congruence; reflexivity. Qed.

(** C9 (amended): take a call of [run] whose first [run_until_complete]
    ends normally or with [KeyboardInterrupt], with no event left to arrive
    while the [finally] block runs.  If every pending task awaited in the
    [finally] block is done or raises [CancelledError], [run] returns
    normally with the event loop closed; on the [KeyboardInterrupt] path
    [stop] has queued a ["STOP"], which is either still queued or was read
    by the resumed coroutine, which then closed the driver.  If instead the
    first pending task that is neither raises an exception other than
    [CancelledError], that exception is not suppressed: it leaves the
    [finally] block before [self._loop.close()], [run] raises it, and the
    event loop is left as it was. *)
Theorem C9_run_closes_loop (E : Env) (conf : Conf) (pending : list Task)
  (evs : list Event) (w : World) (r : Res unit) (c : Coro) (w1 : World) :
  maxsize (w_queue w) <= 0 ->
  Actor.run_until_complete E conf evs CoroNew (add_log LogStartRun w) =
    (Finished r, c, w1, []) ->
  r = Ok tt \/ r = Raise KeyboardInterrupt ->
  (Forall benign pending ->
   exists w',
     Actor.run E conf pending evs w = (Finished (Ok tt), w') /\
     w_loop_closed w' = true /\
     (r = Raise KeyboardInterrupt ->
        items (w_queue w') = [WORKER_CONTROL_SIGNAL_STOP] \/
        (items (w_queue w') = [] /\ live (w_driver w') = None))) /\
  (forall (pre : list Task) (e : Exn) (post : list Task),
     pending = pre ++ OtherTask (Raise e) :: post ->
     Forall benign pre ->
     e <> CancelledError ->
     exists w',
       Actor.run E conf pending evs w = (Finished (Raise e), w') /\
       w_loop_closed w' = w_loop_closed w).
Proof.
  intros Hmax Hrun Hr.
  destruct (run_until_complete_result E conf evs _ _ _ _ _ _ Hrun)
    as (Hmax1 & Hok & Hint); [simpl; exact Hmax | discriminate |].
  pose proof (process_state_loop_closed _ _
                (run_until_complete_process_state E conf evs _ _ _ _ _ _ Hrun)) as Hlc.
  cbn [add_log w_loop_closed] in Hlc.
  split.
  - intros Hpending. unfold Actor.run. rewrite Hrun.
    destruct Hr as [-> | ->].
    + rewrite (Hok eq_refl).
      destruct (await_pending_benign E conf pending Hpending O [] (CoroDone (Ok tt))
                  (add_log LogStopCancelPending w1))
        as (c' & w' & evs' & Hawait & _ & _).
      { split; [simpl; exact Hmax1 | left; reflexivity]. }
      rewrite Hawait. eexists. split; [reflexivity|].
      split; [reflexivity | discriminate].
    + destruct (Hint eq_refl) as [-> Hempty].
      unfold mbind, M_bind. cbn [logging modify].
      rewrite stop_unbounded by (simpl; exact Hmax1).
      cbn [add_log w_queue]. rewrite Hempty. cbn [app].
      match goal with
      | |- context [Actor.await_pending E conf 0 pending [] CoroWaiting ?w3] =>
        destruct (await_pending_benign E conf pending Hpending O [] CoroWaiting w3)
          as (c' & w' & evs' & Hawait & _ & Hwait)
      end.
      { split; [simpl; exact Hmax1 | right; split; reflexivity]. }
      rewrite Hawait. eexists. split; [reflexivity|].
      split; [reflexivity|]. intros _. simpl.
      destruct (Hwait eq_refl) as [[_ Hq] | (_ & Hit & Hlive)].
      * left. rewrite Hq. reflexivity.
      * right. auto.
  - intros pre e post -> Hpre He. unfold Actor.run. rewrite Hrun.
    destruct Hr as [-> | ->].
    + rewrite (Hok eq_refl).
      destruct (await_pending_prefix E conf pre Hpre O (CoroDone (Ok tt))
                  (add_log LogStopCancelPending w1))
        as (c' & w' & _ & Hl & Hrest).
      { split; [simpl; exact Hmax1 | left; reflexivity]. }
      rewrite Hrest, (await_pending_raise E conf _ e post [] c' w' He).
      eexists. split; [reflexivity|]. simpl. rewrite Hl. exact Hlc.
    + destruct (Hint eq_refl) as [-> Hempty].
      unfold mbind, M_bind. cbn [logging modify].
      rewrite stop_unbounded by (simpl; exact Hmax1).
      cbn [add_log w_queue]. rewrite Hempty. cbn [app].
      match goal with
      | |- context [Actor.await_pending E conf 0 _ [] CoroWaiting ?w3] =>
        destruct (await_pending_prefix E conf pre Hpre O CoroWaiting w3)
          as (c' & w' & _ & Hl & Hrest)
      end.
      { split; [simpl; exact Hmax1 | right; split; reflexivity]. }
      rewrite Hrest, (await_pending_raise E conf _ e post [] c' w' He).
      eexists. split; [reflexivity|]. simpl. rewrite Hl. exact Hlc.
Qed.

Lemma C9_run_closes_loop_witness :
  exists w',
    Actor.run example_env example_conf [OtherTask (Raise CancelledError); MainTask]
      [EvSignal SIGINT] (Actor.__init__ example_conf ∅) = (Finished (Ok tt), w') /\
    w_loop_closed w' = true /\
    live (w_driver w') = None.
Proof.
  assert (Hmax : maxsize (w_queue (Actor.__init__ example_conf ∅)) <= 0)
    by (simpl; lia).
  assert (Hpending : Forall benign [OtherTask (Raise CancelledError); MainTask])
    by (repeat constructor).
  assert (Htry : Actor.run_until_complete example_env example_conf [EvSignal SIGINT]
                   CoroNew (add_log LogStartRun (Actor.__init__ example_conf ∅)) =
                 (Finished (Raise KeyboardInterrupt), CoroWaiting,
                  (Actor.drive example_env example_conf CoroNew
                     (add_log LogStartRun (Actor.__init__ example_conf ∅))).2, []))
    by (vm_compute; reflexivity).
  destruct (proj1 (C9_run_closes_loop example_env example_conf
                     [OtherTask (Raise CancelledError); MainTask] [EvSignal SIGINT]
                     (Actor.__init__ example_conf ∅) (Raise KeyboardInterrupt)
                     CoroWaiting
                     (Actor.drive example_env example_conf CoroNew
                        (add_log LogStartRun (Actor.__init__ example_conf ∅))).2
                     Hmax Htry (or_intror eq_refl)) Hpending)
    as (w' & Hrun & Hclosed & _).
  exists w'. split; [exact Hrun|]. split; [exact Hclosed|].
  vm_compute in Hrun. injection Hrun as <-. reflexivity.
Defined.

(** C9 as stated fails when a pending task raises something other than
    [CancelledError]: the run loop has completed normally, the exception
    leaves the [finally] block, and the event loop stays open. *)
Lemma C9_failing_pending_task_leaves_loop_open :
  let res := Actor.run example_env example_conf [OtherTask (Raise RuntimeError)]
               [EvControlMsg STOP_payload] (Actor.__init__ example_conf ∅) in
  res.1 = Finished (Raise RuntimeError) /\ w_loop_closed res.2 = false.
Proof. split; reflexivity. Qed.
